(** * subliminal/subtitle.py: the Subtitle entity and its encoding heuristics

    A shallow embedding of [src/subliminal/subtitle.py].  Pure helpers are
    Rocq functions; the methods of [Subtitle], which read and assign the
    attributes of [self] and may raise, are computations in a state and
    exception monad over the record of attributes.  The libraries the module
    calls (the codec registry, chardet, srt, pysubs2, babelfish, the Unicode
    database) are gathered in one record of collaborators, [Runtime]. *)

From Stdlib Require Import List Strings.String Strings.Ascii Strings.Byte Bool NArith ZArith QArith Lia.
Import ListNotations.

Local Close Scope Q_scope.
Local Open Scope string_scope.
Local Open Scope list_scope.

(** ** Python values used by the module *)

(** [bytes]: an immutable sequence of octets. *)
Definition bytes := list byte.

(** A decoded [str]: a sequence of Unicode code points.  Names (encodings,
    formats, paths, identifiers) are kept as [string]. *)
Definition str := list N.

Module Py.

(** The exception classes that the module names in an [except] clause, and
    those its collaborators raise. *)
Inductive exn : Type :=
| Exception
| ValueError
| UnicodeError
| UnicodeDecodeError
| UnicodeEncodeError
| LookupError
| TypeError
| AttributeError
| RecursionError
| UnknownFPSError.

(** The direct base class; [Exception] is the root of what is modelled. *)
Definition base (e : exn) : option exn :=
  match e with
  | Exception => None
  | UnicodeError => Some ValueError
  | UnicodeDecodeError | UnicodeEncodeError => Some UnicodeError
  | ValueError | LookupError | TypeError | AttributeError
  | RecursionError | UnknownFPSError => Some Exception
  end.

Definition exn_eqb (a b : exn) : bool :=
  match a, b with
  | Exception, Exception | ValueError, ValueError
  | UnicodeError, UnicodeError
  | UnicodeDecodeError, UnicodeDecodeError
  | UnicodeEncodeError, UnicodeEncodeError
  | LookupError, LookupError | TypeError, TypeError
  | AttributeError, AttributeError | RecursionError, RecursionError
  | UnknownFPSError, UnknownFPSError => true
  | _, _ => false
  end.

(** [isinstance e c]: an exception of class [e] is caught by [except c].
    The hierarchy is four classes deep at most. *)
Fixpoint isinstance_upto (depth : nat) (e c : exn) : bool :=
  exn_eqb e c ||
  match depth, base e with
  | S d, Some b => isinstance_upto d b c
  | _, _ => false
  end.

Definition isinstance : exn -> exn -> bool := isinstance_upto 3.

(** [except (c1, c2, ...)] *)
Definition caught_by (cs : list exn) (e : exn) : bool :=
  existsb (isinstance e) cs.

(** What evaluating an expression gives: a value, or a raised exception. *)
Inductive outcome (A : Type) : Type :=
| Ret (a : A)
| Raise (e : exn).
Arguments Ret {A} a.
Arguments Raise {A} e.

Definition obind {A B} (o : outcome A) (k : A -> outcome B) : outcome B :=
  match o with
  | Ret a => k a
  | Raise e => Raise e
  end.

(** Truth value of an optional string ([if encoding:], [if not guessed]). *)
Definition truthy_str (o : option string) : bool :=
  match o with
  | None | Some "" => false
  | Some _ => true
  end.

(** Truth value of an optional boolean ([if hearing_impaired:]). *)
Definition truthy_flag (o : option bool) : bool :=
  match o with
  | Some true => true
  | _ => false
  end.

(** [x is False] *)
Definition is_False (o : option bool) : bool :=
  match o with
  | Some false => true
  | _ => false
  end.

(** [bytes.startswith] *)
Fixpoint startswith (data prefix : bytes) {struct prefix} : bool :=
  match prefix, data with
  | [], _ => true
  | _ :: _, [] => false
  | p :: prefix', d :: data' => Byte.eqb d p && startswith data' prefix'
  end.

(** [str.replace(c, '')] for a one-character [c]: every occurrence of the
    character is dropped. *)
Fixpoint replace_char (c : N) (t : str) : str :=
  match t with
  | [] => []
  | x :: t' => if N.eqb x c then replace_char c t' else x :: replace_char c t'
  end.

End Py.
Import Py.

(** ** Module constants *)

(** Subtitle formats to extension; a [dict], kept in insertion order. *)
Definition FORMAT_TO_EXTENSION : list (string * string) :=
  [ ("srt", ".srt");
    ("ass", ".ass");
    ("ssa", ".ssa");
    ("microdvd", ".sub");
    ("mpl2", ".mpl");
    ("tmp", ".txt");
    ("vtt", ".vtt") ].

(** [dict.get(key, default)] *)
Fixpoint dict_get (d : list (string * string)) (key default : string) : string :=
  match d with
  | [] => default
  | (k, v) :: d' => if String.eqb k key then v else dict_get d' key default
  end.

Definition SUBTITLE_EXTENSIONS : list string :=
  map snd FORMAT_TO_EXTENSION ++ [".smi"].

(** The byte order marks of the [codecs] module. *)
Definition BOM_UTF8 : bytes := [xef; xbb; xbf].
Definition BOM_UTF16_BE : bytes := [xfe; xff].
Definition BOM_UTF16_LE : bytes := [xff; xfe].
Definition BOM_UTF32_BE : bytes := [x00; x00; xfe; xff].
Definition BOM_UTF32_LE : bytes := [xff; xfe; x00; x00].

(** BOMs for UTF contents, first UTF32 BOMS as BOM_UTF32_LE startswith
    BOM_UTF16_LE. *)
Definition BOMS : list (bytes * string) :=
  [ (BOM_UTF8, "utf-8-sig");
    (BOM_UTF32_BE, "utf-32-be");
    (BOM_UTF32_LE, "utf-32-le");
    (BOM_UTF16_BE, "utf-16-be");
    (BOM_UTF16_LE, "utf-16-le") ].

(** ** Subtitle language types *)

Module LanguageType.

Inductive t : Type :=
| UNKNOWN
| FORCED
| NORMAL
| HEARING_IMPAIRED.

(** [LanguageType.from_flags]: the local [language_type] starts as
    [UNKNOWN] and is overwritten by the first branch that applies. *)
Definition from_flags (hearing_impaired forced : option bool) : t :=
  let language_type := UNKNOWN in
  if truthy_flag hearing_impaired then HEARING_IMPAIRED
  else if truthy_flag forced then FORCED
  else if is_False hearing_impaired || is_False forced then NORMAL
  else language_type.

Definition is_hearing_impaired (self : t) : option bool :=
  match self with
  | HEARING_IMPAIRED => Some true
  | UNKNOWN => None
  | _ => Some false
  end.

Definition is_forced (self : t) : option bool :=
  match self with
  | FORCED => Some true
  | UNKNOWN => None
  | _ => Some false
  end.

End LanguageType.

(** ** BOM sniffing *)

(** [[encoding for bom, encoding in BOMS if data.startswith(bom)][:1]] *)
Definition find_encoding_with_bom (data : bytes) : list string :=
  firstn 1
    (map snd (filter (fun entry => startswith data (fst entry)) BOMS)).

(** [content.replace(b'\r\n', b'\n')] *)
Fixpoint fix_line_ending (content : bytes) : bytes :=
  match content with
  | x0d :: ((x0a :: _) as rest) => fix_line_ending rest
  | b :: rest => b :: fix_line_ending rest
  | [] => []
  end.

(** ** Languages (babelfish) *)

(** What the module reads of a [babelfish.Language]: its 3-letter code, and
    the string forms of its optional country and script. *)
Record Language : Type := mkLanguage {
  alpha3 : string;
  country : option string;
  script : option string
}.

(** [bool(language)]: a defined language, not [Language('und')]. *)
Definition language_defined (language : Language) : bool :=
  negb (String.eqb (alpha3 language) "und").

(** [x in (a, b, ...)] on strings *)
Definition str_in (x : string) (l : list string) : bool :=
  existsb (String.eqb x) l.

(** [language.script is not None and language.script.code == code] *)
Definition script_is (language : Language) (code : string) : bool :=
  match script language with
  | Some c => String.eqb c code
  | None => false
  end.

(** Find potential encodings given the language. *)
Definition find_potential_encodings (language : Language) : list string :=
  if String.eqb (alpha3 language) "zho" then
    ["cp936"; "gb2312"; "gbk"; "hz"; "iso2022_jp_2"; "cp950"; "big5hkscs";
     "big5"; "gb18030"; "utf-16"]
  else if String.eqb (alpha3 language) "jpn" then
    ["shift-jis"; "cp932"; "euc_jp"; "iso2022_jp"; "iso2022_jp_1";
     "iso2022_jp_2"; "iso2022_jp_2004"; "iso2022_jp_3"; "iso2022_jp_ext"]
  else if String.eqb (alpha3 language) "tha" then
    ["tis-620"; "cp874"]
  else if str_in (alpha3 language) ["ara"; "fas"; "per"] then
    ["windows-1256"; "utf-16"; "utf-16le"; "ascii"; "iso-8859-6"]
  else if String.eqb (alpha3 language) "heb" then
    ["windows-1255"; "iso-8859-8"]
  else if String.eqb (alpha3 language) "tur" then
    ["windows-1254"; "iso-8859-9"; "iso-8859-3"]
  else if str_in (alpha3 language) ["grc"; "gre"; "ell"] then
    ["windows-1253"; "cp1253"; "cp737"; "iso8859-7"; "cp875"; "cp869";
     "iso2022_jp_2"; "mac_greek"]
  else if str_in (alpha3 language)
            ["pol"; "cze"; "ces"; "slk"; "slo"; "slv"; "hun"; "bos"; "hbs";
             "hrv"; "rsb"; "ron"; "rum"; "sqi"; "alb"] then
    let encodings := ["windows-1250"; "iso-8859-2"] in
    if String.eqb (alpha3 language) "slv" then
      encodings ++ ["iso-8859-4"]
    else if str_in (alpha3 language) ["sqi"; "alb"] then
      encodings ++ ["windows-1252"; "iso-8859-15"; "iso-8859-1"; "iso-8859-9"]
    else encodings
  else if str_in (alpha3 language) ["bul"; "mkd"; "mac"; "rus"; "ukr"] then
    ["windows-1251"; "iso-8859-5"]
  else if String.eqb (alpha3 language) "srp" then
    if script_is language "Latn" then ["windows-1250"; "iso-8859-2"]
    else if script_is language "Cyrl" then ["windows-1251"; "iso-8859-5"]
    else ["windows-1250"; "windows-1251"; "iso-8859-2"; "iso-8859-5"]
  else
    (* Western European (windows-1252) / Northern European *)
    ["windows-1252"; "iso-8859-15"; "iso-8859-9"; "iso-8859-4"; "iso-8859-1"].

(** ** Paths *)

Module os_path.

Local Open Scope Z_scope.

(** [str.rfind(c)] for a one-character [c]: the highest index, or -1. *)
Fixpoint rfind_from (i : Z) (c : ascii) (p : string) (last : Z) : Z :=
  match p with
  | EmptyString => last
  | String x p' =>
      rfind_from (i + 1) c p' (if Ascii.eqb x c then i else last)
  end.

Definition rfind (p : string) (c : ascii) : Z := rfind_from 0 c p (-1).

(** [p[i:i+1] != '.'] *)
Definition not_dot_at (p : string) (i : Z) : bool :=
  match String.get (Z.to_nat i) p with
  | Some c => negb (Ascii.eqb c ".")
  | None => true
  end.

(** The [while filenameIndex < dotIndex] loop of [genericpath._splitext]:
    true when a character other than a dot precedes the last dot. *)
Fixpoint skip_leading_dots (steps : nat) (p : string)
    (filenameIndex dotIndex : Z) : bool :=
  match steps with
  | O => false
  | S steps' =>
      if filenameIndex <? dotIndex then
        if not_dot_at p filenameIndex then true
        else skip_leading_dots steps' p (filenameIndex + 1) dotIndex
      else false
  end.

(** [posixpath.splitext]: root and extension; a leading run of dots in the
    last component is not an extension. *)
Definition splitext (p : string) : string * string :=
  let sepIndex := rfind p "/" in
  let dotIndex := rfind p "." in
  if (sepIndex <? dotIndex)
     && skip_leading_dots (String.length p) p (sepIndex + 1) dotIndex
  then (String.substring 0 (Z.to_nat dotIndex) p,
        String.substring (Z.to_nat dotIndex)
          (String.length p - Z.to_nat dotIndex) p)
  else (p, EmptyString).

End os_path.

(** [get_subtitle_path(video_path, suffix, extension)] *)
Definition get_subtitle_path (video_path suffix extension : string) : string :=
  (* Full name and path *)
  let subtitle_root := fst (os_path.splitext video_path) in
  subtitle_root ++ suffix ++ extension.

(** ** Collaborators *)

(** The [errors] argument of [bytes.decode]. *)
Inductive errors_policy : Type :=
| strict
| replace.

(** One cue of the [srt] library. *)
Record SrtCue : Type := mkSrtCue {
  cue_index : Z;
  cue_start : Z;
  cue_end : Z;
  cue_content : str
}.

(** What the module calls and does not define.  Each field is the call as
    the module makes it; a call that can raise gives an [outcome]. *)
Record Runtime : Type := mkRuntime {
  (** [content.decode(encoding, errors=...)] *)
  bytes_decode : bytes -> string -> errors_policy -> outcome str;
  (** [text.encode(encoding=...)] *)
  str_encode : str -> string -> outcome bytes;
  (** [codecs.lookup(encoding).name] *)
  codecs_lookup : string -> outcome string;
  (** whether the Unicode database holds a code point printable *)
  char_isprintable : N -> bool;
  (** [chardet.detect(content)['encoding']] *)
  chardet_detect : bytes -> option string;
  (** [srt.parse] and [srt.compose] *)
  srt_parse : str -> outcome (list SrtCue);
  srt_compose : list SrtCue -> outcome str;
  (** [str(SSAFile.from_string(text, format_=..., fps=...).format)] *)
  SSAFile_from_string : str -> option string -> option Q -> outcome string;
  (** [str(getattr(language, name))]; [None] when the attribute lookup
      raises [AttributeError], as a babelfish conversion error does *)
  language_getattr : Language -> string -> option string;
  (** [str(language)] *)
  language_str : Language -> string;
  (** [hash] of a [str] *)
  hash_str : string -> Z;
  (** how many nested calls the interpreter allows *)
  recursion_limit : nat
}.

(** ** The subtitle entity *)

(** The attributes of a [Subtitle] instance, with the class attribute
    [provider_name]. *)
Record Subtitle : Type := mkSubtitle {
  provider_name : string;
  _content : option bytes;
  _text : str;
  _is_decoded : bool;
  _is_valid : option bool;
  _guess_encoding : bool;
  language : Language;
  subtitle_id : string;
  language_type : LanguageType.t;
  page_link : option string;
  encoding : option string;
  subtitle_format : option string;
  fps : option Q;
  embedded : bool
}.

(** Attribute assignments, one per attribute the methods assign. *)
Definition with_content (v : option bytes) (s : Subtitle) : Subtitle :=
  mkSubtitle (provider_name s) v (_text s) (_is_decoded s) (_is_valid s)
    (_guess_encoding s) (language s) (subtitle_id s) (language_type s)
    (page_link s) (encoding s) (subtitle_format s) (fps s) (embedded s).

Definition with_text (v : str) (s : Subtitle) : Subtitle :=
  mkSubtitle (provider_name s) (_content s) v (_is_decoded s) (_is_valid s)
    (_guess_encoding s) (language s) (subtitle_id s) (language_type s)
    (page_link s) (encoding s) (subtitle_format s) (fps s) (embedded s).

Definition with_is_decoded (v : bool) (s : Subtitle) : Subtitle :=
  mkSubtitle (provider_name s) (_content s) (_text s) v (_is_valid s)
    (_guess_encoding s) (language s) (subtitle_id s) (language_type s)
    (page_link s) (encoding s) (subtitle_format s) (fps s) (embedded s).

Definition with_is_valid (v : option bool) (s : Subtitle) : Subtitle :=
  mkSubtitle (provider_name s) (_content s) (_text s) (_is_decoded s) v
    (_guess_encoding s) (language s) (subtitle_id s) (language_type s)
    (page_link s) (encoding s) (subtitle_format s) (fps s) (embedded s).

Definition with_encoding (v : option string) (s : Subtitle) : Subtitle :=
  mkSubtitle (provider_name s) (_content s) (_text s) (_is_decoded s)
    (_is_valid s) (_guess_encoding s) (language s) (subtitle_id s)
    (language_type s) (page_link s) v (subtitle_format s) (fps s)
    (embedded s).

Definition with_subtitle_format (v : option string) (s : Subtitle) : Subtitle :=
  mkSubtitle (provider_name s) (_content s) (_text s) (_is_decoded s)
    (_is_valid s) (_guess_encoding s) (language s) (subtitle_id s)
    (language_type s) (page_link s) (encoding s) v (fps s) (embedded s).

(** *** Methods as computations on [self] *)

Module Method.

(** A method body: from the attributes of [self] to what the call gives
    and the attributes afterwards.  Assignments made before a [raise]
    stay. *)
Definition M (A : Type) : Type := Subtitle -> outcome A * Subtitle.

Definition ret {A} (a : A) : M A := fun self => (Ret a, self).

Definition raise {A} (e : exn) : M A := fun self => (Raise e, self).

Definition bind {A B} (m : M A) (k : A -> M B) : M B :=
  fun self =>
    match m self with
    | (Ret a, self') => k a self'
    | (Raise e, self') => (Raise e, self')
    end.

(** Read an attribute. *)
Definition attr {A} (field : Subtitle -> A) : M A :=
  fun self => (Ret (field self), self).

(** Assign an attribute. *)
Definition assign (update : Subtitle -> Subtitle) : M unit :=
  fun self => (Ret tt, update self).

(** The result of a call that does not touch [self]. *)
Definition call {A} (o : outcome A) : M A := fun self => (o, self).

(** [try: body  except classes: handler]; an exception the clause does
    not name goes on. *)
Definition try_except {A} (body : M A) (classes : list exn)
    (handler : M A) : M A :=
  fun self =>
    match body self with
    | (Ret a, self') => (Ret a, self')
    | (Raise e, self') =>
        if caught_by classes e then handler self' else (Raise e, self')
    end.

End Method.

Declare Scope method_scope.
Delimit Scope method_scope with method.
Notation "x <- m ;; k" := (Method.bind m (fun x => k))
  (at level 61, m at next level, right associativity) : method_scope.
Notation "m ;; k" := (Method.bind m (fun _ => k))
  (at level 61, right associativity) : method_scope.

Section Methods.

Variable rt : Runtime.

Import Method.
Local Open Scope method_scope.

(** [str.isprintable]: all characters are printable, or the string is
    empty. *)
Definition isprintable (t : str) : bool := forallb (char_isprintable rt) t.

Definition CR : N := 13.
Definition LF : N := 10.
Definition TAB : N := 9.

(** [decoded.replace('\r', '').replace('\n', '').replace('\t', '')] *)
Definition remove_whitespace (decoded : str) : str :=
  replace_char TAB (replace_char LF (replace_char CR decoded)).

(** *** Format detection *)

Definition default_fps : Q := (24 # 1)%Q.

(** [get_subtitle_format]; the function calls itself on
    [UnknownFPSError], and [depth] bounds the nesting as the interpreter
    does: the call that exceeds it raises [RecursionError]. *)
Fixpoint get_subtitle_format (depth : nat) (t : str)
    (subtitle_format : option string) (fps : option Q)
    : outcome (option string) :=
  match depth with
  | O => Raise RecursionError
  | S depth' =>
      match SSAFile_from_string rt t subtitle_format fps with
      | Ret format => Ret (Some format)
      | Raise e =>
          if isinstance e UnknownFPSError then
            get_subtitle_format depth' t subtitle_format (Some default_fps)
          else if isinstance e Exception then
            (* logged: not a valid subtitle *)
            Ret None
          else Raise e
      end
  end.

(** *** Suffix *)

Definition only_language_formats : list string :=
  ["alpha2"; "alpha3"; "alpha3b"; "alpha3t"; "name"].

(** The language part of [get_subtitle_suffix]. *)
Definition language_part (language : Language) (language_format : string)
    : string :=
  let language_part := "" in
  if language_defined language then
    let language_str :=
      match language_getattr rt language language_format with
      | Some rendered => rendered
      | None => language_str rt language
      end in
    let language_part := ("." ++ language_str)%string in
    if str_in language_format only_language_formats then
      (* Add country and script if present *)
      let language_part :=
        match country language with
        | Some c => (language_part ++ "-" ++ c)%string
        | None => language_part
        end in
      match script language with
      | Some sc => (language_part ++ "-" ++ sc)%string
      | None => language_part
      end
    else language_part
  else language_part.

(** The language type part of [get_subtitle_suffix]. *)
Definition language_type_part (language_type : LanguageType.t)
    (language_type_suffix : bool) : string :=
  let language_type_part := "" in
  if language_type_suffix then
    match language_type with
    | LanguageType.HEARING_IMPAIRED => ".hi"
    | LanguageType.FORCED => ".forced"
    | _ => language_type_part
    end
  else language_type_part.

Definition get_subtitle_suffix (language : Language)
    (language_format : string) (language_type : LanguageType.t)
    (language_type_suffix : bool) : string :=
  (language_type_part language_type language_type_suffix
   ++ language_part language language_format)%string.

(** *** Construction *)

(** The arguments of [Subtitle.__init__], with the class attribute
    [provider_name] of the class that is instantiated. *)
Record init_args : Type := mkArgs {
  arg_provider_name : string;
  arg_language : Language;
  arg_subtitle_id : string;
  arg_hearing_impaired : option bool;
  arg_forced : option bool;
  arg_page_link : option string;
  arg_encoding : option string;
  arg_subtitle_format : option string;
  arg_fps : option Q;
  arg_embedded : bool;
  arg_guess_encoding : bool
}.

(** The attributes once [__init__] has run down to [self.encoding = None]. *)
Definition init_attributes (a : init_args) : Subtitle :=
  mkSubtitle (arg_provider_name a) None [] false None
    (arg_guess_encoding a) (arg_language a) (arg_subtitle_id a)
    (LanguageType.from_flags (arg_hearing_impaired a) (arg_forced a))
    (arg_page_link a) None (arg_subtitle_format a) (arg_fps a)
    (arg_embedded a).

(** The end of [__init__]: validate the encoding. *)
Definition validate_encoding (encoding : option string) : M unit :=
  if truthy_str encoding then
    match encoding with
    | Some encoding =>
        try_except
          (name <- call (codecs_lookup rt encoding) ;;
           assign (with_encoding (Some name)))
          [TypeError; LookupError]
          (* logged: unsupported encoding *)
          (ret tt)
    | None => ret tt
    end
  else ret tt.

(** [Subtitle.__init__] *)
Definition __init__ (a : init_args) : outcome unit * Subtitle :=
  validate_encoding (arg_encoding a) (init_attributes a).

(** *** Properties and methods *)

(** The [id] property. *)
Definition id (self : Subtitle) : string := subtitle_id self.

(** [Subtitle.clear_content] *)
Definition clear_content : M unit :=
  assign (with_text []) ;;
  assign (with_is_decoded false) ;;
  assign (with_is_valid None).

(** [Subtitle._decode_content] *)
Definition _decode_content : M str :=
  assign (with_is_decoded true) ;;
  content <- attr _content ;;
  match content with
  | None | Some [] => ret []
  | Some content =>
      encoding <- attr encoding ;;
      if negb (truthy_str encoding) then
        (* No encoding found *)
        ret []
      else
        match encoding with
        | Some encoding =>
            (* Decode *)
            call (bytes_decode rt content encoding replace)
        | None => ret []
        end
  end.

(** The [text] property. *)
Definition text : M str :=
  decoded <- attr _is_decoded ;;
  (if negb decoded then
     t <- _decode_content ;;
     assign (with_text t)
   else ret tt) ;;
  attr _text.

(** The [for encoding in encodings] loop of [guess_encoding]: [Ret (Some
    encoding)] is [return encoding], [Ret None] is the loop running out. *)
Fixpoint try_encodings (content : bytes) (encodings : list string)
    : outcome (option string) :=
  match encodings with
  | [] => Ret None
  | encoding :: rest =>
      match bytes_decode rt content encoding strict with
      | Ret decoded =>
          (* remove whitespace other than spaces from the string *)
          let decoded := remove_whitespace decoded in
          if negb (isprintable decoded) then try_encodings content rest
          else Ret (Some encoding)
      | Raise e =>
          if isinstance e UnicodeDecodeError then try_encodings content rest
          else Raise e
      end
  end.

(** The candidates that [guess_encoding] tries, in order. *)
Definition candidate_encodings (content : bytes) (language : Language)
    : list string :=
  (* always try utf-8 first *)
  let encodings := ["utf-8"] in
  (* add UTF encodings matched by the BOM *)
  let encodings := encodings ++ find_encoding_with_bom content in
  (* add language-specific encodings *)
  encodings ++ find_potential_encodings language.

(** [Subtitle.guess_encoding] *)
Definition guess_encoding : M (option string) :=
  content <- attr _content ;;
  match content with
  | None => ret None
  | Some content =>
      language <- attr language ;;
      guessed <- call (try_encodings content
                         (candidate_encodings content language)) ;;
      match guessed with
      | Some encoding => ret (Some encoding)
      | None =>
          (* fallback on chardet *)
          ret (chardet_detect rt content)
      end
  end.

(** The setter of the [content] property. *)
Definition set_content (value : option bytes) : M unit :=
  clear_content ;;
  assign (with_content value) ;;
  guess <- attr _guess_encoding ;;
  encoding <- attr encoding ;;
  match guess, encoding with
  | true, None =>
      guessed <- guess_encoding ;;
      assign (with_encoding guessed)
  | _, _ => ret tt
  end.

(** [Subtitle.reencode] *)
Definition reencode (encoding : string) : M bool :=
  (* Compute self._text by calling the property *)
  t <- text ;;
  match t with
  | [] =>
      (* Text is empty: reencoding would erase the content *)
      ret false
  | _ :: _ =>
      (* Try re-encoding *)
      encoded <-
        try_except
          (new_content <- call (str_encode rt t encoding) ;;
           ret (Some new_content))
          [UnicodeEncodeError]
          (* logged: cannot encode text to bytes *)
          (ret None) ;;
      match encoded with
      | None => ret false
      | Some new_content =>
          (* Save the new encoding and new raw content *)
          assign (with_encoding (Some encoding)) ;;
          assign (with_content (Some new_content)) ;;
          ret true
      end
  end.

(** [Subtitle.parse_srt] *)
Definition parse_srt : M str :=
  t <- text ;;
  call (obind (srt_parse rt t) (srt_compose rt)).

(** [Subtitle._check_is_valid], from [# Valid srt] on. *)
Definition check_known_format (auto_fix_srt : bool) : M bool :=
  format <- attr subtitle_format ;;
  match format with
  | Some format =>
      if String.eqb format "srt" then
        parsed <-
          try_except
            (parsed <- parse_srt ;; ret (Some parsed))
            [Exception]
            (* logged: srt parsing failed, subtitle is invalid *)
            (ret None) ;;
        match parsed with
        | None => ret false
        | Some parsed =>
            (if auto_fix_srt then assign (with_text parsed) else ret tt) ;;
            ret true
        end
      else
        (* TODO: check other formats *)
        ret true
  | None => ret true
  end.

(** [Subtitle._check_is_valid] *)
Definition _check_is_valid (auto_fix_srt : bool) : M bool :=
  t <- text ;;
  match t with
  | [] => ret false
  | _ :: _ =>
      (* Try guessing the subtitle format *)
      format <- attr subtitle_format ;;
      match format with
      | None =>
          t <- text ;;
          fps <- attr fps ;;
          guessed_format <-
            call (get_subtitle_format (recursion_limit rt) t format fps) ;;
          if negb (truthy_str guessed_format) then
            (* Cannot guess format *)
            ret false
          else
            (* Keep the guessed format *)
            assign (with_subtitle_format guessed_format) ;;
            check_known_format auto_fix_srt
      | Some _ => check_known_format auto_fix_srt
      end
  end.

(** [bool(self._is_valid)] *)
Definition bool_of (v : option bool) : bool :=
  match v with
  | Some b => b
  | None => false
  end.

(** [Subtitle.is_valid] *)
Definition is_valid (auto_fix_srt : bool) : M bool :=
  cached <- attr _is_valid ;;
  (match cached with
   | None =>
       valid <- _check_is_valid auto_fix_srt ;;
       assign (with_is_valid (Some valid))
   | Some _ => ret tt
   end) ;;
  cached <- attr _is_valid ;;
  ret (bool_of cached).

(** [Subtitle.get_path], for a video of name [video_name]. *)
Definition get_path (self : Subtitle) (video_name : string) (single : bool)
    (extension : option string) (language_type_suffix : bool)
    (language_format : string) : string :=
  let extension :=
    match extension with
    | None =>
        match subtitle_format self with
        | Some format => dict_get FORMAT_TO_EXTENSION format ".srt"
        | None => ".srt"
        end
    | Some extension => extension
    end in
  let suffix :=
    if single then ""
    else get_subtitle_suffix (language self) language_format
           (language_type self) language_type_suffix in
  get_subtitle_path video_name suffix extension.

(** [Subtitle.__hash__] *)
Definition __hash__ (self : Subtitle) : Z :=
  hash_str rt (provider_name self ++ "-" ++ id self)%string.

(** *** The other properties of the entity *)

(** The [info] property. *)
Definition info (self : Subtitle) : string := id self.

(** The [hearing_impaired] property. *)
Definition hearing_impaired (self : Subtitle) : option bool :=
  LanguageType.is_hearing_impaired (language_type self).

(** The [forced] property. *)
Definition forced (self : Subtitle) : option bool :=
  LanguageType.is_forced (language_type self).

(** *** Embedded subtitles *)

(** The arguments of [EmbeddedSubtitle.__init__]. *)
Record embedded_args : Type := mkEmbeddedArgs {
  emb_language : Language;
  emb_hearing_impaired : option bool;
  emb_forced : option bool;
  emb_encoding : option string;
  emb_subtitle_format : option string
}.

(** [EmbeddedSubtitle.__init__]: the id is made from the language, and the
    rest is left to [Subtitle.__init__], with [embedded=True]; the class
    keeps the empty [provider_name] of [Subtitle]. *)
Definition EmbeddedSubtitle__init__ (a : embedded_args)
    : outcome unit * Subtitle :=
  let subtitle_id :=
    ("Embedded <" ++ language_str rt (emb_language a) ++ ">")%string in
  __init__
    (mkArgs "" (emb_language a) subtitle_id (emb_hearing_impaired a)
       (emb_forced a) None (emb_encoding a) (emb_subtitle_format a) None
       true true).

(** The [info] property of [EmbeddedSubtitle]. *)
Definition EmbeddedSubtitle_info (self : Subtitle) : string :=
  let extra :=
    match language_type self with
    | LanguageType.HEARING_IMPAIRED => " [hi]"
    | LanguageType.FORCED => " [forced]"
    | _ => ""
    end in
  (id self ++ extra)%string.


End Methods.

(** ** Instances and their identity *)

Module Instances.

(** An instance is known by its identity; the heap holds the attributes
    of every instance made so far. *)
Definition ref : Type := nat.
Definition heap : Type := list Subtitle.

(** [Subtitle(...)]: a new instance, initialised by [__init__]. *)
Definition new (rt : Runtime) (a : init_args) (h : heap)
    : outcome ref * heap :=
  match __init__ rt a with
  | (Ret _, self) => (Ret (List.length h), (h ++ [self])%list)
  | (Raise e, _) => (Raise e, h)
  end.

Definition attributes (h : heap) (r : ref) : option Subtitle :=
  nth_error h r.

Fixpoint store (h : heap) (r : ref) (self : Subtitle) : heap :=
  match h, r with
  | [], _ => []
  | _ :: h', O => self :: h'
  | x :: h', S r' => x :: store h' r' self
  end.

(** Call a method on the instance [r]. *)
Definition invoke {A} (m : Method.M A) (r : ref) (h : heap)
    : option (outcome A) * heap :=
  match attributes h r with
  | Some self => (Some (fst (m self)), store h r (snd (m self)))
  | None => (None, h)
  end.

(** [a == b].  The class defines [__hash__] and no [__eq__], so the
    comparison is that of [object]: identity. *)
Definition eq (a b : ref) : bool := Nat.eqb a b.

(** [hash(a)] *)
Definition hash (rt : Runtime) (h : heap) (a : ref) : option Z :=
  option_map (__hash__ rt) (attributes h a).

End Instances.

(** ** A small runtime

    A concrete [Runtime] to run the methods on: a codec registry of six
    codecs that behave as CPython's do, and small stand-ins for the other
    libraries. *)

Module Mini.

Local Open Scope N_scope.

Definition code (b : byte) : N := Byte.to_N b.

Definition octet (n : N) : byte :=
  match Byte.of_N n with
  | Some b => b
  | None => x00
  end.

(** A [str] literal of ASCII characters. *)
Fixpoint lit (s : string) : str :=
  match s with
  | EmptyString => []
  | String c s' => N_of_ascii c :: lit s'
  end.

(** *** Codec names *)

Definition is_alnum (n : N) : bool :=
  ((48 <=? n) && (n <=? 57)) || ((65 <=? n) && (n <=? 90))
  || ((97 <=? n) && (n <=? 122)).

Definition lower (n : N) : N :=
  if (65 <=? n) && (n <=? 90) then n + 32 else n.

(** Lower case; every run of other characters becomes one underscore,
    dropped at both ends. *)
Fixpoint normalize_from (punct started : bool) (s : string) : string :=
  match s with
  | EmptyString => EmptyString
  | String c s' =>
      let n := N_of_ascii c in
      if is_alnum n || (n =? 46) then
        let rest := String (ascii_of_N (lower n))
                      (normalize_from false true s') in
        if punct && started then String "_" rest else rest
      else normalize_from true started s'
  end.

Definition normalize_encoding (name : string) : string :=
  normalize_from false false name.

Definition aliases : list (string * string) :=
  [ ("utf_8", "utf-8"); ("utf8", "utf-8"); ("u8", "utf-8");
    ("utf", "utf-8");
    ("utf_8_sig", "utf-8-sig");
    ("ascii", "ascii"); ("us_ascii", "ascii"); ("646", "ascii");
    ("latin_1", "iso8859-1"); ("latin1", "iso8859-1");
    ("iso_8859_1", "iso8859-1"); ("iso8859_1", "iso8859-1");
    ("l1", "iso8859-1");
    ("cp1251", "cp1251"); ("windows_1251", "cp1251"); ("1251", "cp1251");
    ("iso8859_5", "iso8859-5"); ("iso_8859_5", "iso8859-5");
    ("cyrillic", "iso8859-5") ].

Fixpoint has_nul (s : string) : bool :=
  match s with
  | EmptyString => false
  | String c s' => (N_of_ascii c =? 0) || has_nul s'
  end.

Fixpoint assoc (key : string) (d : list (string * string)) : option string :=
  match d with
  | [] => None
  | (k, v) :: d' => if String.eqb k key then Some v else assoc key d'
  end.

(** [codecs.lookup(name).name] *)
Definition lookup (name : string) : outcome string :=
  if has_nul name then Raise ValueError
  else
    match assoc (normalize_encoding name) aliases with
    | Some canonical => Ret canonical
    | None => Raise LookupError
    end.

(** *** UTF-8 *)

Inductive step : Type :=
| Scalar (cp : N) (width : nat)
| Malformed (width : nat).

Definition is_cont (n : N) : bool := (128 <=? n) && (n <=? 191).

(** The scalar value at the head of [data], or how many octets of an
    ill-formed sequence one error covers. *)
Definition utf8_step (data : bytes) : step :=
  match map code data with
  | [] => Malformed 0
  | n0 :: rest =>
      if n0 <? 128 then Scalar n0 1
      else if n0 <? 194 then Malformed 1
      else if n0 <? 224 then
        match rest with
        | n1 :: _ =>
            if is_cont n1 then Scalar ((n0 - 192) * 64 + (n1 - 128)) 2
            else Malformed 1
        | [] => Malformed 1
        end
      else if n0 <? 240 then
        match rest with
        | n1 :: rest1 =>
            if ((if n0 =? 224 then 160 else 128) <=? n1)
               && (n1 <=? (if n0 =? 237 then 159 else 191)) then
              match rest1 with
              | n2 :: _ =>
                  if is_cont n2 then
                    Scalar ((n0 - 224) * 4096 + (n1 - 128) * 64
                            + (n2 - 128)) 3
                  else Malformed 2
              | [] => Malformed 2
              end
            else Malformed 1
        | [] => Malformed 1
        end
      else if n0 <? 245 then
        match rest with
        | n1 :: rest1 =>
            if ((if n0 =? 240 then 144 else 128) <=? n1)
               && (n1 <=? (if n0 =? 244 then 143 else 191)) then
              match rest1 with
              | n2 :: rest2 =>
                  if is_cont n2 then
                    match rest2 with
                    | n3 :: _ =>
                        if is_cont n3 then
                          Scalar ((n0 - 240) * 262144 + (n1 - 128) * 4096
                                  + (n2 - 128) * 64 + (n3 - 128)) 4
                        else Malformed 3
                    | [] => Malformed 3
                    end
                  else Malformed 2
              | [] => Malformed 2
              end
            else Malformed 1
        | [] => Malformed 1
        end
      else Malformed 1
  end.

Definition REPLACEMENT : N := 65533.

Fixpoint utf8_decode (fuel : nat) (errors : errors_policy) (data : bytes)
    : outcome str :=
  match fuel, data with
  | _, [] => Ret []
  | O, _ => Raise UnicodeDecodeError
  | S fuel', _ =>
      match utf8_step data with
      | Scalar cp width =>
          obind (utf8_decode fuel' errors (skipn width data))
                (fun t => Ret (cp :: t))
      | Malformed width =>
          match errors with
          | strict => Raise UnicodeDecodeError
          | replace =>
              obind (utf8_decode fuel' errors (skipn width data))
                    (fun t => Ret (REPLACEMENT :: t))
          end
      end
  end.

Definition utf8_encode_char (cp : N) : option bytes :=
  if cp <? 128 then Some [octet cp]
  else if cp <? 2048 then
    Some [octet (192 + cp / 64); octet (128 + cp mod 64)]
  else if cp <? 65536 then
    if (55296 <=? cp) && (cp <=? 57343) then None
    else Some [octet (224 + cp / 4096); octet (128 + (cp / 64) mod 64);
               octet (128 + cp mod 64)]
  else if cp <? 1114112 then
    Some [octet (240 + cp / 262144); octet (128 + (cp / 4096) mod 64);
          octet (128 + (cp / 64) mod 64); octet (128 + cp mod 64)]
  else None.

(** *** Single-octet codecs *)

Definition cp1251_high : list (option N) :=
  [ Some 1026; Some 1027; Some 8218; Some 1107; Some 8222; Some 8230;
    Some 8224; Some 8225; Some 8364; Some 8240; Some 1033; Some 8249;
    Some 1034; Some 1036; Some 1035; Some 1039; Some 1106; Some 8216;
    Some 8217; Some 8220; Some 8221; Some 8226; Some 8211; Some 8212;
    None; Some 8482; Some 1113; Some 8250; Some 1114; Some 1116;
    Some 1115; Some 1119; Some 160; Some 1038; Some 1118; Some 1032;
    Some 164; Some 1168; Some 166; Some 167; Some 1025; Some 169;
    Some 1028; Some 171; Some 172; Some 173; Some 174; Some 1031;
    Some 176; Some 177; Some 1030; Some 1110; Some 1169; Some 181;
    Some 182; Some 183; Some 1105; Some 8470; Some 1108; Some 187;
    Some 1112; Some 1029; Some 1109; Some 1111 ].

(** The code point of one octet, when the codec defines it. *)
Definition charmap (codec : string) (n : N) : option N :=
  if String.eqb codec "ascii" then
    if n <? 128 then Some n else None
  else if String.eqb codec "iso8859-1" then Some n
  else if String.eqb codec "cp1251" then
    if n <? 128 then Some n
    else if n <? 192 then nth (N.to_nat (n - 128)) cp1251_high None
    else Some (n + 848)
  else if String.eqb codec "iso8859-5" then
    if (n <? 161) || (n =? 173) then Some n
    else if n =? 240 then Some 8470
    else if n =? 253 then Some 167
    else Some (n + 864)
  else None.

Fixpoint charmap_decode (codec : string) (errors : errors_policy)
    (data : bytes) : outcome str :=
  match data with
  | [] => Ret []
  | b :: data' =>
      match charmap codec (code b), errors with
      | Some cp, _ =>
          obind (charmap_decode codec errors data') (fun t => Ret (cp :: t))
      | None, replace =>
          obind (charmap_decode codec errors data')
                (fun t => Ret (REPLACEMENT :: t))
      | None, strict => Raise UnicodeDecodeError
      end
  end.

(** The octet that the codec decodes to [cp], searched for upwards from
    [256 - left]. *)
Fixpoint charmap_find (codec : string) (cp : N) (left : nat) : option byte :=
  match left with
  | O => None
  | S left' =>
      let n := 256 - N.of_nat left in
      match charmap codec n with
      | Some cp' =>
          if cp' =? cp then Some (octet n) else charmap_find codec cp left'
      | None => charmap_find codec cp left'
      end
  end.

Definition encode_char (codec : string) (cp : N) : option bytes :=
  if String.eqb codec "utf-8" || String.eqb codec "utf-8-sig" then
    utf8_encode_char cp
  else option_map (fun b => [b]) (charmap_find codec cp 256).

Fixpoint encode_chars (codec : string) (t : str) : outcome bytes :=
  match t with
  | [] => Ret []
  | cp :: t' =>
      match encode_char codec cp with
      | Some bs => obind (encode_chars codec t') (fun r => Ret (bs ++ r)%list)
      | None => Raise UnicodeEncodeError
      end
  end.

(** [data.decode(name, errors)] *)
Definition decode (data : bytes) (name : string) (errors : errors_policy)
    : outcome str :=
  obind (lookup name) (fun codec =>
    if String.eqb codec "utf-8" then
      utf8_decode (List.length data) errors data
    else if String.eqb codec "utf-8-sig" then
      let data := if startswith data BOM_UTF8 then skipn 3 data else data in
      utf8_decode (List.length data) errors data
    else charmap_decode codec errors data).

(** [t.encode(name)] *)
Definition encode (t : str) (name : string) : outcome bytes :=
  obind (lookup name) (fun codec =>
    obind (encode_chars codec t) (fun data =>
      if String.eqb codec "utf-8-sig" then Ret (BOM_UTF8 ++ data)%list
      else Ret data)).

(** *** The Unicode database *)

(** The code points that are not printable, in the blocks up to Cyrillic
    Supplement and from General Punctuation to Letterlike Symbols; outside
    these blocks this database holds nothing printable. *)
Definition unprintable : list (N * N) :=
  [ (0, 31); (127, 160); (173, 173); (888, 889); (896, 899); (907, 907);
    (909, 909); (930, 930); (1328, 8191); (8192, 8207); (8232, 8239);
    (8287, 8303); (8306, 8307); (8335, 8335); (8349, 8351); (8385, 8399);
    (8433, 8447); (8528, 1114111) ].

Definition printable (cp : N) : bool :=
  negb (existsb (fun r => (fst r <=? cp) && (cp <=? snd r)) unprintable).

(** *** Stand-ins for the other libraries *)

(** A detector that is confident about plain ASCII only. *)
Definition detect (content : bytes) : option string :=
  match content with
  | [] => None
  | _ :: _ =>
      if forallb (fun b => code b <? 128) content then Some "ascii"
      else None
  end.

Fixpoint starts (t prefix : str) {struct prefix} : bool :=
  match prefix, t with
  | [], _ => true
  | _ :: _, [] => false
  | p :: prefix', x :: t' => (x =? p) && starts t' prefix'
  end.

Fixpoint contains (t needle : str) : bool :=
  starts t needle ||
  match t with
  | [] => false
  | _ :: t' => contains t' needle
  end.

(** The lines of a text, without their line ends. *)
Fixpoint split_lines (t : str) (line_rev : str) : list str :=
  match t with
  | [] => match line_rev with [] => [] | _ :: _ => [rev line_rev] end
  | c :: t' =>
      if c =? 10 then rev line_rev :: split_lines t' []
      else if (c =? 13) && starts t' [10] then split_lines t' line_rev
      else split_lines t' (c :: line_rev)
  end.

Definition is_digit (c : N) : bool := (48 <=? c) && (c <=? 57).

(** The number that a run of digits writes, and what follows it. *)
Fixpoint number (t : str) (seen : option N) : option (N * str) :=
  match t with
  | c :: t' =>
      if is_digit c then
        number t' (Some (match seen with
                         | Some n => n * 10 + (c - 48)
                         | None => c - 48
                         end))
      else option_map (fun n => (n, t)) seen
  | [] => option_map (fun n => (n, t)) seen
  end.

Definition expect (prefix : str) (t : str) : option str :=
  if starts t prefix then Some (skipn (List.length prefix) t) else None.

Definition obind' {A B} (o : option A) (k : A -> option B) : option B :=
  match o with
  | Some a => k a
  | None => None
  end.

(** [H:M:S,ms] in milliseconds *)
Definition timestamp (t : str) : option (N * str) :=
  obind' (number t None) (fun '(h, t) =>
  obind' (expect (lit ":") t) (fun t =>
  obind' (number t None) (fun '(m, t) =>
  obind' (expect (lit ":") t) (fun t =>
  obind' (number t None) (fun '(sec, t) =>
  obind' (expect (lit ",") t) (fun t =>
  obind' (number t None) (fun '(ms, t) =>
  Some (((h * 60 + m) * 60 + sec) * 1000 + ms, t)))))))).

Definition timing (line : str) : option (N * N) :=
  obind' (timestamp line) (fun '(t0, rest) =>
  obind' (expect (lit " --> ") rest) (fun rest =>
  obind' (timestamp rest) (fun '(t1, rest) =>
  match rest with
  | [] => Some (t0, t1)
  | _ :: _ => None
  end))).

Inductive position : Type :=
| Between
| AfterIndex (index : N)
| InCue (index start stop : N) (content_rev : list str).

Definition join_lines (lines : list str) : str :=
  match lines with
  | [] => []
  | l :: ls => l ++ flat_map (fun x => 10 :: x) ls
  end.

Definition close_cue (index start stop : N) (content_rev : list str)
    : SrtCue :=
  mkSrtCue (Z.of_N index) (Z.of_N start) (Z.of_N stop)
    (join_lines (rev content_rev)).

(** A line-by-line reader: an index line, a timing line, the lines of the
    cue up to an empty line; anything else is a parse error. *)
Fixpoint read_cues (lines : list str) (at_ : position)
    (cues_rev : list SrtCue) : outcome (list SrtCue) :=
  match lines with
  | [] =>
      match at_ with
      | Between => Ret (rev cues_rev)
      | AfterIndex _ => Raise Exception
      | InCue i t0 t1 c => Ret (rev (close_cue i t0 t1 c :: cues_rev))
      end
  | line :: lines' =>
      match at_ with
      | Between =>
          match line with
          | [] => read_cues lines' Between cues_rev
          | _ :: _ =>
              match number line None with
              | Some (i, []) => read_cues lines' (AfterIndex i) cues_rev
              | _ => Raise Exception
              end
          end
      | AfterIndex i =>
          match timing line with
          | Some (t0, t1) => read_cues lines' (InCue i t0 t1 []) cues_rev
          | None => Raise Exception
          end
      | InCue i t0 t1 c =>
          match line with
          | [] => read_cues lines' Between (close_cue i t0 t1 c :: cues_rev)
          | _ :: _ => read_cues lines' (InCue i t0 t1 (line :: c)) cues_rev
          end
      end
  end.

Definition parse (t : str) : outcome (list SrtCue) :=
  read_cues (split_lines t []) Between [].

Fixpoint decimal (fuel : nat) (n : N) (acc : str) : str :=
  match fuel with
  | O => acc
  | S fuel' =>
      let acc := (48 + n mod 10) :: acc in
      if n <? 10 then acc else decimal fuel' (n / 10) acc
  end.

Definition padded (width : nat) (n : N) : str :=
  let digits := decimal 20 n [] in
  repeat 48 (width - List.length digits) ++ digits.

Definition write_timestamp (ms : Z) : str :=
  let ms := Z.to_N ms in
  padded 2 (ms / 3600000) ++ lit ":" ++ padded 2 ((ms / 60000) mod 60)
  ++ lit ":" ++ padded 2 ((ms / 1000) mod 60) ++ lit ","
  ++ padded 3 (ms mod 1000).

(** The cues are written in order and numbered again from [index]; a cue
    without content is left out. *)
Fixpoint write_cues (index : N) (cues : list SrtCue) : str :=
  match cues with
  | [] => []
  | cue :: cues' =>
      match cue_content cue with
      | [] => write_cues index cues'
      | _ :: _ =>
          padded 1 index ++ [10]
          ++ write_timestamp (cue_start cue) ++ lit " --> "
          ++ write_timestamp (cue_end cue) ++ [10]
          ++ cue_content cue ++ [10; 10]
          ++ write_cues (index + 1) cues'
      end
  end.

Definition compose (cues : list SrtCue) : outcome str :=
  Ret (write_cues 1 cues).

(** A format detector that looks at how the text starts; a frame-based
    text needs a frame rate. *)
Definition from_string (t : str) (format_ : option string) (fps : option Q)
    : outcome string :=
  match format_ with
  | Some format =>
      if str_in format (map fst FORMAT_TO_EXTENSION) then
        if String.eqb format "microdvd" then
          match fps with
          | Some _ => Ret format
          | None => Raise UnknownFPSError
          end
        else Ret format
      else Raise Exception
  | None =>
      if starts t (lit "WEBVTT") then Ret "vtt"
      else if starts t (lit "[Script Info]") then Ret "ass"
      else if starts t (lit "{") then
        match fps with
        | Some _ => Ret "microdvd"
        | None => Raise UnknownFPSError
        end
      else if contains t (lit " --> ") then Ret "srt"
      else Raise Exception
  end.

(** A few languages: 3-letter code, 2-letter code, name. *)
Definition languages : list (string * (string * string)) :=
  [ ("eng", ("en", "English")); ("fra", ("fr", "French"));
    ("rus", ("ru", "Russian")); ("srp", ("sr", "Serbian"));
    ("por", ("pt", "Portuguese")) ].

Fixpoint language_entry (code3 : string)
    (table : list (string * (string * string))) : option (string * string) :=
  match table with
  | [] => None
  | (k, v) :: table' =>
      if String.eqb k code3 then Some v else language_entry code3 table'
  end.

Definition getattr (language : Language) (name : string) : option string :=
  if String.eqb name "alpha3" then Some (alpha3 language)
  else if String.eqb name "alpha2" then
    option_map fst (language_entry (alpha3 language) languages)
  else if String.eqb name "name" then
    option_map snd (language_entry (alpha3 language) languages)
  else None.

Definition to_str (language : Language) : string :=
  (alpha3 language
   ++ match country language with Some c => "-" ++ c | None => "" end
   ++ match script language with Some c => "-" ++ c | None => "" end
  )%string.

(** A polynomial hash over the characters. *)
Fixpoint hash_from (h : N) (s : string) : N :=
  match s with
  | EmptyString => h
  | String c s' => hash_from ((h * 31 + N_of_ascii c) mod 18446744073709551616) s'
  end.

Definition hash (s : string) : Z := Z.of_N (hash_from 7 s).

Definition runtime : Runtime :=
  mkRuntime decode encode lookup printable detect parse compose
    from_string getattr to_str hash 1000.

End Mini.

(** ** Sample subtitles *)

Module Examples.

Definition english : Language := mkLanguage "eng" None None.
Definition russian : Language := mkLanguage "rus" None None.

(** The octets of an ASCII literal. *)
Fixpoint ascii_bytes (s : string) : bytes :=
  match s with
  | EmptyString => []
  | String c s' => Mini.octet (N_of_ascii c) :: ascii_bytes s'
  end.

(** [Subtitle(language, 'id-1')] in a provider class named "provider". *)
Definition plain_args (language : Language) : init_args :=
  mkArgs "provider" language "id-1" None None None None None None false
    true.

Definition fresh (language : Language) : Subtitle :=
  snd (__init__ Mini.runtime (plain_args language)).

(** The same with [content] assigned. *)
Definition loaded (language : Language) (content : bytes) : Subtitle :=
  snd (set_content Mini.runtime (Some content) (fresh language)).

(** "Привет" in windows-1251. *)
Definition privet_cp1251 : bytes := [xcf; xf0; xe8; xe2; xe5; xf2].

(** One octet that windows-1251 does not define and that ISO 8859-5 reads
    as a control character. *)
Definition stray_octet : bytes := [x98].

Definition hello : bytes := ascii_bytes "Hello".

Definition NL : string := String "010" EmptyString.

(** One cue, numbered 7 and without the closing blank line. *)
Definition one_cue : bytes :=
  ascii_bytes ("7" ++ NL ++ "00:00:01,000 --> 00:00:02,500" ++ NL
               ++ "Hello")%string.

(** The same cue as the composer writes it. *)
Definition one_cue_recomposed : str :=
  Mini.lit ("1" ++ NL ++ "00:00:01,000 --> 00:00:02,500" ++ NL
            ++ "Hello" ++ NL ++ NL)%string.

(** An encoding name with an embedded NUL character. *)
Definition nul_name : string := ("utf-8" ++ String "000" EmptyString)%string.

Definition nul_args : init_args :=
  mkArgs "provider" english "id-1" None None None (Some nul_name) None
    None false true.


End Examples.

(** ** Vocabulary of the properties *)

Section Vocabulary.

Variable rt : Runtime.

(** Carriage return, newline or tab. *)
Definition is_line_whitespace (c : N) : bool :=
  N.eqb c 13 || N.eqb c 10 || N.eqb c 9.

(** A candidate passes: the content decodes under it without error, and
    every character of the decoded text other than a carriage return, a
    newline or a tab is printable. *)
Definition accepted (content : bytes) (encoding : string) : bool :=
  match bytes_decode rt content encoding strict with
  | Ret decoded =>
      forallb (fun c => is_line_whitespace c || char_isprintable rt c)
        decoded
  | Raise _ => false
  end.

(** A candidate is passed over: decoding raises [UnicodeDecodeError], or
    the decoded text holds an unprintable character. *)
Definition skipped (content : bytes) (encoding : string) : bool :=
  match bytes_decode rt content encoding strict with
  | Ret decoded =>
      negb (forallb (fun c => is_line_whitespace c || char_isprintable rt c)
              decoded)
  | Raise e => isinstance e UnicodeDecodeError
  end.

(** What decoding the bytes [content] under [encoding] gives a reader of
    [text]. *)
Definition decoded_from (content : option bytes) (encoding : option string)
    : outcome str :=
  match content, encoding with
  | Some (b :: content'), Some (String c name) =>
      bytes_decode rt (b :: content') (String c name) replace
  | _, _ => Ret []
  end.

(** What a caller may do to a subtitle short of assigning its content:
    the methods of the class that touch its attributes. *)
Inductive later_call : Type :=
| call_is_valid (auto_fix_srt : bool)
| read_text
| call_reencode (encoding : string)
| call_parse_srt
| call_guess_encoding
| call_clear_content.

Definition is_validity_call (c : later_call) : bool :=
  match c with
  | call_is_valid _ => true
  | _ => false
  end.

(** The calls other than [clear_content]. *)
Definition keeps_validity (c : later_call) : bool :=
  match c with
  | call_clear_content => false
  | _ => true
  end.

(** A run of such calls: the answers of the [is_valid] calls, in order, and
    the attributes at the end. *)
Fixpoint later_calls (calls : list later_call) (self : Subtitle)
    : list (outcome bool) * Subtitle :=
  match calls with
  | [] => ([], self)
  | call_is_valid auto_fix_srt :: calls' =>
      let r := is_valid rt auto_fix_srt self in
      let rs := later_calls calls' (snd r) in
      (fst r :: fst rs, snd rs)
  | read_text :: calls' => later_calls calls' (snd (text rt self))
  | call_reencode encoding :: calls' =>
      later_calls calls' (snd (reencode rt encoding self))
  | call_parse_srt :: calls' => later_calls calls' (snd (parse_srt rt self))
  | call_guess_encoding :: calls' =>
      later_calls calls' (snd (guess_encoding rt self))
  | call_clear_content :: calls' =>
      later_calls calls' (snd (clear_content self))
  end.

(** The parse-then-compose round trip of the srt library. *)
Definition srt_round_trip (t : str) : outcome str :=
  obind (srt_parse rt t) (srt_compose rt).

(** The claim on [reencode], as worded: false, with encoding, content and
    text as they were, when the text is empty or encoding it raises
    [UnicodeEncodeError]; true otherwise, with the encoding and the
    content set; and a result in either case. *)
Definition reencode_never_raises : Prop :=
  forall (target : string) (self : Subtitle) (t : str) (s1 : Subtitle),
    text rt self = (Ret t, s1) ->
    let r := reencode rt target self in
    let fails :=
      t = [] \/ exists e, str_encode rt t target = Raise e
                          /\ isinstance e UnicodeEncodeError = true in
    (fails ->
     fst r = Ret false
     /\ encoding (snd r) = encoding self
     /\ _content (snd r) = _content self
     /\ fst (text rt (snd r)) = Ret t)
    /\ (~ fails ->
        exists new_content,
          str_encode rt t target = Ret new_content
          /\ fst r = Ret true
          /\ encoding (snd r) = Some target
          /\ _content (snd r) = Some new_content).

(** The claim on the cached validity, as worded: once [is_valid] has
    returned, and with the content as it was then, every later call of it
    returns the same boolean and leaves the text reading as before the
    call, whatever flag it is given. *)
Definition cached_while_content_unchanged : Prop :=
  forall (first : bool) (self : Subtitle) (v : bool) (s1 : Subtitle)
         (calls : list later_call) (auto_fix_srt : bool),
    is_valid rt first self = (Ret v, s1) ->
    let before := snd (later_calls calls s1) in
    _content before = _content s1 ->
    let after := snd (is_valid rt auto_fix_srt before) in
    fst (is_valid rt auto_fix_srt before) = Ret v
    /\ fst (text rt after) = fst (text rt before).

(** The claim on equality, as worded: two instances made with the same
    provider name and the same id are equal and hash alike, and two
    instances of different ids are not equal. *)
Definition equal_by_provider_and_id : Prop :=
  forall (h : Instances.heap) (a1 a2 : init_args)
         (r1 r2 : Instances.ref) (h1 h2 : Instances.heap),
    Instances.new rt a1 h = (Ret r1, h1) ->
    Instances.new rt a2 h1 = (Ret r2, h2) ->
    (arg_provider_name a1 = arg_provider_name a2 ->
     arg_subtitle_id a1 = arg_subtitle_id a2 ->
     Instances.eq r1 r2 = true
     /\ Instances.hash rt h2 r1 = Instances.hash rt h2 r2)
    /\ (arg_subtitle_id a1 <> arg_subtitle_id a2 ->
        Instances.eq r1 r2 = false).

End Vocabulary.

(** ** Vocabulary of the further properties *)

(** No carriage return directly followed by a newline. *)
Fixpoint crlf_free (content : bytes) : bool :=
  match content with
  | [] => true
  | b :: rest =>
      negb (Byte.eqb b x0d
            && match rest with
               | c :: _ => Byte.eqb c x0a
               | [] => false
               end)
      && crlf_free rest
  end.

(** The content without its carriage returns. *)
Definition without_cr (content : bytes) : bytes :=
  filter (fun b => negb (Byte.eqb b x0d)) content.

(** How many newlines the content holds. *)
Definition newlines (content : bytes) : nat :=
  List.length (filter (fun b => Byte.eqb b x0a) content).

(** [s.startswith('.')] *)
Definition starts_with_dot (s : string) : bool :=
  match s with
  | String c _ => Ascii.eqb c "."
  | EmptyString => false
  end.

(** Whether a character occurs in a string. *)
Fixpoint occurs (c : ascii) (s : string) : bool :=
  match s with
  | EmptyString => false
  | String x s' => Ascii.eqb x c || occurs c s'
  end.


(** The attributes after the content setter has cleared and assigned. *)
Definition cleared_with (value : option bytes) (self : Subtitle) : Subtitle :=
  with_content value
    (with_is_valid None (with_is_decoded false (with_text [] self))).

Section FurtherVocabulary.

Variable rt : Runtime.

(** The first check of a text under a format that is set. *)
Definition checked_as (format : string) (auto_fix_srt : bool) (t : str)
    (s1 : Subtitle) : outcome bool * Subtitle :=
  if String.eqb format "srt" then
    match srt_round_trip rt t with
    | Ret parsed =>
        (Ret true,
         with_is_valid (Some true)
           (if auto_fix_srt then with_text parsed s1 else s1))
    | Raise _ => (Ret false, with_is_valid (Some false) s1)
    end
  else (Ret true, with_is_valid (Some true) s1).

End FurtherVocabulary.


(** ** Further sample subtitles *)

Module Samples.

Definition undefined : Language := mkLanguage "und" None None.

(** [Subtitle(language, 'id-1', guess_encoding=False)] *)
Definition unguessed_args (language : Language) : init_args :=
  mkArgs "provider" language "id-1" None None None None None None false
    false.

(** "Hello" assigned to a subtitle that does not guess and has no
    encoding. *)
Definition hello_without_encoding : Subtitle :=
  snd (set_content Mini.runtime (Some Examples.hello)
         (snd (__init__ Mini.runtime (unguessed_args Examples.english)))).

(** "Hello" assigned to a subtitle whose encoding was set to a name that is
    no codec. *)
Definition hello_under_no_codec : Subtitle :=
  snd (set_content Mini.runtime (Some Examples.hello)
         (with_encoding (Some "no-such-codec")
            (Examples.fresh Examples.english))).


Definition cue_text : str :=
  Mini.lit ("7" ++ Examples.NL ++ "00:00:01,000 --> 00:00:02,500"
            ++ Examples.NL ++ "Hello")%string.

(** A frame-based text. *)
Definition frames : bytes := Examples.ascii_bytes "{1}{2}Hello".

(** The embedded English track, plain and hearing impaired. *)
Definition embedded_plain : embedded_args :=
  mkEmbeddedArgs Examples.english None None None None.

Definition embedded_hi : embedded_args :=
  mkEmbeddedArgs Examples.english (Some true) None (Some "utf-8")
    (Some "srt").

End Samples.


(** * Properties *)

(** ** The language type classifier *)

(** C7. For every pair of optional booleans, [LanguageType.from_flags]
    gives [HEARING_IMPAIRED] when [hearing_impaired] is true; otherwise
    [FORCED] when [forced] is true; otherwise [NORMAL] when either flag is
    explicitly false; and [UNKNOWN] when both flags are unset. *)
Theorem from_flags_priority :
  forall hearing_impaired forced : option bool,
    (hearing_impaired = Some true ->
     LanguageType.from_flags hearing_impaired forced
     = LanguageType.HEARING_IMPAIRED)
    /\ (hearing_impaired <> Some true -> forced = Some true ->
        LanguageType.from_flags hearing_impaired forced = LanguageType.FORCED)
    /\ (hearing_impaired <> Some true -> forced <> Some true ->
        hearing_impaired = Some false \/ forced = Some false ->
        LanguageType.from_flags hearing_impaired forced = LanguageType.NORMAL)
    /\ (hearing_impaired = None -> forced = None ->
        LanguageType.from_flags hearing_impaired forced
        = LanguageType.UNKNOWN).
Proof.
  intros [[|]|] [[|]|]; repeat split; intros;
    try reflexivity; try congruence;
    match goal with
    | H : _ \/ _ |- _ => destruct H; congruence
    end.
Qed.

(** The four values are reached, and the two projections invert the
    classifier, [UNKNOWN] going to unknown. *)
Lemma from_flags_projections :
  forall t : LanguageType.t,
    LanguageType.from_flags (LanguageType.is_hearing_impaired t)
      (LanguageType.is_forced t) = t.
Proof. intros []; reflexivity. Qed.

(** ** Byte order marks *)

Lemma startswith_app :
  forall prefix rest : bytes, startswith (prefix ++ rest) prefix = true.
Proof.
  induction prefix as [|p prefix IH]; intros rest; simpl.
  - reflexivity.
  - rewrite (Byte.byte_dec_lb eq_refl). simpl. apply IH.
Qed.

Lemma startswith_split :
  forall data prefix : bytes,
    startswith data prefix = true -> exists rest, data = prefix ++ rest.
Proof.
  intros data prefix. revert data.
  induction prefix as [|p prefix IH]; intros data H.
  - exists data. reflexivity.
  - destruct data as [|d data]; simpl in H; [discriminate|].
    apply andb_true_iff in H. destruct H as [Hd Hrest].
    apply Byte.byte_dec_bl in Hd. subst d.
    destruct (IH _ Hrest) as [rest ->]. exists rest. reflexivity.
Qed.

(** The first entry of a table that a test accepts is what the
    comprehension followed by [[:1]] keeps. *)
Lemma first_accepted {A B : Type} (test : A * B -> bool) :
  forall (before : list (A * B)) (entry : A * B) (after : list (A * B)),
    (forall e, In e before -> test e = false) ->
    test entry = true ->
    firstn 1 (map snd (filter test (before ++ entry :: after)))
    = [snd entry].
Proof.
  induction before as [|x before IH]; intros entry after Hbefore Hentry.
  - simpl. rewrite Hentry. reflexivity.
  - simpl. rewrite (Hbefore x (or_introl eq_refl)).
    apply IH; [|assumption].
    intros e He. apply Hbefore. right. assumption.
Qed.

Lemma none_accepted {A B : Type} (test : A * B -> bool) :
  forall table : list (A * B),
    (forall e, In e table -> test e = false) ->
    firstn 1 (map snd (filter test table)) = [].
Proof.
  induction table as [|x table IH]; intros Hall.
  - reflexivity.
  - simpl. rewrite (Hall x (or_introl eq_refl)).
    apply IH. intros e He. apply Hall. right. assumption.
Qed.

Lemma firstn_1_length {A : Type} :
  forall l : list A, (List.length (firstn 1 l) <= 1)%nat.
Proof. intros [|x [|y l]]; simpl; lia. Qed.

(** C6. [find_encoding_with_bom] gives at most one name: the encoding
    paired with the first mark, in the order UTF-8, UTF-32BE, UTF-32LE,
    UTF-16BE, UTF-16LE, that the data starts with; data that starts with the
    UTF-32LE mark is reported as UTF-32LE and never as UTF-16LE; data that
    starts with no mark gives the empty list. *)
Theorem find_encoding_with_bom_first_mark :
  forall data : bytes,
    (List.length (find_encoding_with_bom data) <= 1)%nat
    /\ map fst BOMS
       = [BOM_UTF8; BOM_UTF32_BE; BOM_UTF32_LE; BOM_UTF16_BE; BOM_UTF16_LE]
    /\ (forall before bom encoding after,
          BOMS = before ++ (bom, encoding) :: after ->
          (forall e, In e before -> startswith data (fst e) = false) ->
          startswith data bom = true ->
          find_encoding_with_bom data = [encoding])
    /\ ((forall e, In e BOMS -> startswith data (fst e) = false) ->
        find_encoding_with_bom data = [])
    /\ (startswith data BOM_UTF32_LE = true ->
        startswith data BOM_UTF16_LE = true
        /\ find_encoding_with_bom data = ["utf-32-le"]
        /\ ~ In "utf-16-le" (find_encoding_with_bom data)).
Proof.
  intros data. split; [apply firstn_1_length|].
  split; [reflexivity|].
  split.
  { intros before bom encoding after Htable Hbefore Hbom.
    unfold find_encoding_with_bom. rewrite Htable.
    apply (first_accepted (fun entry => startswith data (fst entry))
             before (bom, encoding) after Hbefore Hbom). }
  split.
  { intros Hnone. unfold find_encoding_with_bom.
    apply none_accepted. assumption. }
  intros H32. destruct (startswith_split _ _ H32) as [rest ->].
  split; [reflexivity|].
  split; [reflexivity|].
  simpl. intros [Heq|[]]. discriminate Heq.
Qed.

(** ** The methods of the entity *)

Section Properties.

Variable rt : Runtime.

(** *** Guessing the encoding *)

Lemma replace_char_filter :
  forall (c : N) (t : str),
    replace_char c t = filter (fun x => negb (N.eqb x c)) t.
Proof.
  intros c t. induction t as [|x t IH]; simpl.
  - reflexivity.
  - destruct (N.eqb x c); simpl; rewrite IH; reflexivity.
Qed.

(** The printability check after the three [replace] calls looks at the
    characters other than carriage return, newline and tab. *)
Lemma isprintable_remove_whitespace :
  forall decoded : str,
    isprintable rt (remove_whitespace decoded)
    = forallb (fun c => is_line_whitespace c || char_isprintable rt c)
        decoded.
Proof.
  intros decoded. unfold isprintable, remove_whitespace.
  rewrite !replace_char_filter.
  induction decoded as [|x decoded IH]; simpl.
  - reflexivity.
  - unfold is_line_whitespace, CR, LF, TAB in *.
    destruct (N.eqb x 13); simpl; [exact IH|].
    destruct (N.eqb x 10); simpl; [exact IH|].
    destruct (N.eqb x 9); simpl; [exact IH|].
    rewrite IH. reflexivity.
Qed.

Lemma accepted_spec :
  forall content encoding,
    accepted rt content encoding = true <->
    exists decoded,
      bytes_decode rt content encoding strict = Ret decoded
      /\ forall c, In c decoded ->
           c <> 13%N -> c <> 10%N -> c <> 9%N ->
           char_isprintable rt c = true.
Proof.
  intros content encoding. unfold accepted.
  destruct (bytes_decode rt content encoding strict) as [decoded|e].
  - rewrite forallb_forall. split.
    + intros H. exists decoded. split; [reflexivity|].
      intros c Hc H13 H10 H9. specialize (H c Hc).
      unfold is_line_whitespace in H.
      apply N.eqb_neq in H13, H10, H9. rewrite H13, H10, H9 in H.
      exact H.
    + intros [decoded' [Heq H]]. injection Heq as <-.
      intros c Hc. unfold is_line_whitespace.
      destruct (N.eqb_spec c 13); [reflexivity|].
      destruct (N.eqb_spec c 10); [reflexivity|].
      destruct (N.eqb_spec c 9); [reflexivity|].
      simpl. apply H; assumption.
  - split; [discriminate|]. intros [decoded [Heq _]]. discriminate Heq.
Qed.

Lemma try_encodings_accepted :
  forall content encoding after,
    accepted rt content encoding = true ->
    try_encodings rt content (encoding :: after) = Ret (Some encoding).
Proof.
  intros content encoding after H. unfold accepted in H. simpl.
  destruct (bytes_decode rt content encoding strict) as [decoded|e];
    [|discriminate].
  rewrite isprintable_remove_whitespace, H. reflexivity.
Qed.

Lemma try_encodings_skipped :
  forall content before rest,
    forallb (skipped rt content) before = true ->
    try_encodings rt content (before ++ rest)
    = try_encodings rt content rest.
Proof.
  intros content before rest.
  induction before as [|encoding before IH]; intros H; simpl in *.
  - reflexivity.
  - apply andb_true_iff in H. destruct H as [Hskip Hbefore].
    unfold skipped in Hskip.
    destruct (bytes_decode rt content encoding strict) as [decoded|e].
    + rewrite isprintable_remove_whitespace, Hskip. apply IH, Hbefore.
    + rewrite Hskip. apply IH, Hbefore.
Qed.

(** When decoding raises nothing but [UnicodeDecodeError], a candidate
    either passes or is passed over; so either some candidate is the first
    to pass, or all are passed over. *)
Lemma accepted_or_skipped :
  forall content encoding,
    (forall x,
       bytes_decode rt content encoding strict = Raise x ->
       isinstance x UnicodeDecodeError = true) ->
    accepted rt content encoding = negb (skipped rt content encoding).
Proof.
  intros content encoding Hraise. unfold accepted, skipped.
  destruct (bytes_decode rt content encoding strict) as [decoded|x].
  - rewrite negb_involutive. reflexivity.
  - rewrite (Hraise x eq_refl). reflexivity.
Qed.

Lemma first_accepted_or_all_skipped :
  forall (content : bytes) (candidates : list string),
    (forall encoding x,
       In encoding candidates ->
       bytes_decode rt content encoding strict = Raise x ->
       isinstance x UnicodeDecodeError = true) ->
    (exists before encoding after,
       candidates = before ++ encoding :: after
       /\ forallb (skipped rt content) before = true
       /\ accepted rt content encoding = true)
    \/ forallb (skipped rt content) candidates = true.
Proof.
  intros content candidates.
  induction candidates as [|encoding candidates IH]; intros Hraise.
  - right. reflexivity.
  - destruct (skipped rt content encoding) eqn:Hskip.
    + destruct IH as [[before [e [after [Hsplit [Hbefore Hacc]]]]]|Hall].
      * intros e x He. apply Hraise. right. exact He.
      * left. exists (encoding :: before), e, after.
        split; [rewrite Hsplit; reflexivity|].
        split; [simpl; rewrite Hskip; exact Hbefore|exact Hacc].
      * right. simpl. rewrite Hskip. exact Hall.
    + left. exists [], encoding, candidates.
      split; [reflexivity|]. split; [reflexivity|].
      rewrite accepted_or_skipped, Hskip; [reflexivity|].
      intros x. apply Hraise. left. reflexivity.
Qed.

(** C1. For every byte content and language, [guess_encoding] tries
    ["utf-8"], then the BOM-matched encodings, then the language-specific
    encodings, and returns the first candidate that decodes without error
    and whose decoded text, carriage returns, newlines and tabs apart, is
    printable; a candidate that decodes to an unprintable text is passed
    over like one that does not decode; when every candidate is passed
    over, the result is the guess of chardet, which may be [None].  The two
    cases are all there is when decoding raises nothing but
    [UnicodeDecodeError]. *)
Theorem guess_encoding_first_accepted_candidate :
  forall (self : Subtitle) (content : bytes),
    _content self = Some content ->
    let candidates :=
      "utf-8" :: find_encoding_with_bom content
                 ++ find_potential_encodings (language self) in
    candidate_encodings content (language self) = candidates
    /\ (forall before encoding after,
          candidates = before ++ encoding :: after ->
          forallb (skipped rt content) before = true ->
          accepted rt content encoding = true ->
          guess_encoding rt self = (Ret (Some encoding), self))
    /\ (forallb (skipped rt content) candidates = true ->
        guess_encoding rt self = (Ret (chardet_detect rt content), self))
    /\ ((forall encoding x,
           In encoding candidates ->
           bytes_decode rt content encoding strict = Raise x ->
           isinstance x UnicodeDecodeError = true) ->
        (exists before encoding after,
           candidates = before ++ encoding :: after
           /\ forallb (skipped rt content) before = true
           /\ accepted rt content encoding = true)
        \/ forallb (skipped rt content) candidates = true).
Proof.
  intros self content Hcontent candidates.
  assert (Hcand : candidate_encodings content (language self) = candidates)
    by reflexivity.
  split; [exact Hcand|]. split; [|split].
  - intros before encoding after Hsplit Hskip Hacc.
    unfold guess_encoding, Method.bind, Method.attr, Method.call,
      Method.ret.
    rewrite Hcontent, Hcand, Hsplit.
    rewrite (try_encodings_skipped _ _ _ Hskip).
    rewrite (try_encodings_accepted _ _ _ Hacc). reflexivity.
  - intros Hskip.
    unfold guess_encoding, Method.bind, Method.attr, Method.call,
      Method.ret.
    rewrite Hcontent, Hcand.
    rewrite <- (app_nil_r candidates).
    rewrite (try_encodings_skipped _ _ _ Hskip). reflexivity.
  - apply first_accepted_or_all_skipped.
Qed.

(** *** Assigning the content *)

(** Guessing reads the content and the language only. *)
Lemma guess_encoding_reads :
  forall self other : Subtitle,
    _content self = _content other ->
    language self = language other ->
    fst (guess_encoding rt self) = fst (guess_encoding rt other).
Proof.
  intros self other Hc Hl.
  unfold guess_encoding, Method.bind, Method.attr, Method.call, Method.ret.
  rewrite Hc.
  destruct (_content other) as [content|]; [|reflexivity].
  rewrite Hl.
  destruct (try_encodings rt content _) as [[encoding|]|e]; reflexivity.
Qed.

Lemma guess_encoding_keeps :
  forall self : Subtitle, snd (guess_encoding rt self) = self.
Proof.
  intros self.
  unfold guess_encoding, Method.bind, Method.attr, Method.call, Method.ret.
  destruct (_content self) as [content|]; [|reflexivity].
  destruct (try_encodings rt content _) as [[encoding|]|e]; reflexivity.
Qed.

(** A text read on cleared attributes decodes the content. *)
Lemma text_after_clear :
  forall self : Subtitle,
    _is_decoded self = false ->
    fst (text rt self) = decoded_from rt (_content self) (encoding self).
Proof.
  intros self Hd.
  unfold text, _decode_content, decoded_from.
  unfold Method.bind, Method.attr, Method.assign, Method.call, Method.ret.
  rewrite Hd. simpl.
  destruct (_content self) as [[|b content]|]; simpl; try reflexivity.
  destruct (encoding self) as [[|c name]|]; simpl; try reflexivity.
  destruct (bytes_decode rt (b :: content) (String c name) replace);
    reflexivity.
Qed.

(** C5. Assigning the content clears the derived state (the cached text,
    the decoded flag and the validity flag), so that the next text read
    decodes the new bytes; the encoding is guessed exactly when none is set
    and guessing is enabled, a flag that the constructor sets and the setter
    keeps, and is left as it was otherwise. *)
Theorem content_setter_clears_and_guesses :
  forall (value : option bytes) (self : Subtitle),
    let r := set_content rt value self in
    let self' := snd r in
    _content self' = value
    /\ _text self' = []
    /\ _is_decoded self' = false
    /\ _is_valid self' = None
    /\ _guess_encoding self' = _guess_encoding self
    /\ fst (text rt self') = decoded_from rt value (encoding self')
    /\ (_guess_encoding self = true -> encoding self = None ->
        match fst (guess_encoding rt (with_content value self)) with
        | Ret guessed => fst r = Ret tt /\ encoding self' = guessed
        | Raise e => fst r = Raise e /\ encoding self' = None
        end)
    /\ (_guess_encoding self = false \/ encoding self <> None ->
        fst r = Ret tt /\ encoding self' = encoding self).
Proof.
  intros value self r self'.
  assert (Hshape :
    (_guess_encoding self = true /\ encoding self = None
     /\ r = match fst (guess_encoding rt (with_content value self)) with
            | Ret guessed =>
                (Ret tt,
                 with_encoding guessed
                   (with_content value
                      (with_is_valid None
                         (with_is_decoded false (with_text [] self)))))
            | Raise e =>
                (Raise e,
                 with_content value
                   (with_is_valid None
                      (with_is_decoded false (with_text [] self))))
            end)
    \/ ((_guess_encoding self = false \/ encoding self <> None)
        /\ r = (Ret tt,
                with_content value
                  (with_is_valid None
                     (with_is_decoded false (with_text [] self)))))).
  { subst r.
    unfold set_content, clear_content, Method.bind, Method.attr,
      Method.assign, Method.ret.
    cbn -[guess_encoding].
    destruct (_guess_encoding self) eqn:Hg.
    - destruct (encoding self) as [enc|] eqn:He.
      + right. split; [right; discriminate|reflexivity].
      + left. split; [reflexivity|]. split; [reflexivity|].
        set (cleared := with_content value
                          (with_is_valid None
                             (with_is_decoded false (with_text [] self)))).
        rewrite (guess_encoding_reads (with_content value self) cleared)
          by reflexivity.
        pose proof (guess_encoding_keeps cleared) as Hkeep.
        destruct (guess_encoding rt cleared) as [[guessed|e] after].
        * simpl in Hkeep. subst after. reflexivity.
        * simpl in Hkeep. subst after. reflexivity.
    - right. split; [left; reflexivity|reflexivity]. }
  assert (Hcleared :
    _content self' = value /\ _text self' = []
    /\ _is_decoded self' = false /\ _is_valid self' = None
    /\ _guess_encoding self' = _guess_encoding self).
  { subst self'.
    destruct Hshape as [[_ [_ ->]]|[_ ->]].
    - destruct (fst (guess_encoding rt (with_content value self)));
        repeat split.
    - repeat split. }
  destruct Hcleared as [Hc [Ht [Hd [Hv Hflag]]]].
  split; [exact Hc|]. split; [exact Ht|]. split; [exact Hd|].
  split; [exact Hv|]. split; [exact Hflag|]. split.
  { rewrite (text_after_clear self' Hd), Hc. reflexivity. }
  split.
  { intros Hg He.
    destruct Hshape as [[_ [_ Hr]]|[[Hg'|He'] _]]; [|congruence..].
    subst self'. rewrite Hr.
    destruct (fst (guess_encoding rt (with_content value self)));
      split; try reflexivity.
    exact He. }
  intros Hoff.
  destruct Hshape as [[Hg [He _]]|[_ Hr]].
  - destruct Hoff; congruence.
  - subst self'. rewrite Hr. split; reflexivity.
Qed.

(** *** Reading the text and re-encoding *)

(** A text read that returns leaves the attributes as they were, but for
    the cached text and the decoded flag. *)
Lemma text_read_returns :
  forall (self : Subtitle) (t : str) (s1 : Subtitle),
    text rt self = (Ret t, s1) ->
    s1 = with_text t (with_is_decoded true self).
Proof.
  intros self t s1.
  unfold text, _decode_content, Method.bind, Method.attr, Method.assign,
    Method.call, Method.ret.
  destruct self as [pn c tx d v g l i lt pl enc f fp em].
  unfold with_text, with_is_decoded. simpl.
  destruct d; simpl.
  - intros H. injection H as <- <-. reflexivity.
  - destruct c as [[|b c]|]; simpl;
      try (intros H; injection H as <- <-; reflexivity).
    destruct (truthy_str enc); simpl;
      try (intros H; injection H as <- <-; reflexivity).
    destruct enc as [enc|]; simpl;
      try (intros H; injection H as <- <-; reflexivity).
    destruct (bytes_decode rt (b :: c) enc replace) as [decoded|e]; simpl.
    + intros H; injection H as <- <-; reflexivity.
    + discriminate.
Qed.

(** Once read, the text is cached: reading again gives the same text and
    changes nothing. *)
Lemma text_read_again :
  forall (self : Subtitle) (t : str) (s1 : Subtitle),
    text rt self = (Ret t, s1) -> text rt s1 = (Ret t, s1).
Proof.
  intros self t s1 H. rewrite (text_read_returns _ _ _ H).
  reflexivity.
Qed.

(** C2, amended. [reencode] returns false, with encoding, content and text
    as they were, when the decoded text is empty or encoding it raises
    [UnicodeEncodeError]; when encoding the text succeeds, it sets the
    encoding attribute to the given name and the content to the encoded
    bytes, and returns true; any other exception raised by the encoding,
    such as [LookupError] for a name that is no codec, goes to the caller,
    with encoding and content as they were. *)
Theorem reencode_outcomes :
  forall (target : string) (self : Subtitle) (t : str) (s1 : Subtitle),
    text rt self = (Ret t, s1) ->
    (encoding s1 = encoding self
     /\ _content s1 = _content self
     /\ text rt s1 = (Ret t, s1))
    /\ (t = [] -> reencode rt target self = (Ret false, s1))
    /\ (t <> [] ->
        forall e,
          str_encode rt t target = Raise e ->
          isinstance e UnicodeEncodeError = true ->
          reencode rt target self = (Ret false, s1))
    /\ (t <> [] ->
        forall new_content,
          str_encode rt t target = Ret new_content ->
          reencode rt target self
          = (Ret true,
             with_content (Some new_content)
               (with_encoding (Some target) s1)))
    /\ (t <> [] ->
        forall e,
          str_encode rt t target = Raise e ->
          isinstance e UnicodeEncodeError = false ->
          reencode rt target self = (Raise e, s1)).
Proof.
  intros target self t s1 Htext.
  split.
  { split; [|split].
    - rewrite (text_read_returns _ _ _ Htext). reflexivity.
    - rewrite (text_read_returns _ _ _ Htext). reflexivity.
    - exact (text_read_again _ _ _ Htext). }
  unfold reencode, Method.bind, Method.try_except, Method.call,
    Method.ret, Method.assign, caught_by.
  rewrite Htext.
  destruct t as [|c t].
  - split; [reflexivity|].
    repeat split; intros Hne; exfalso; apply Hne; reflexivity.
  - split; [discriminate|].
    repeat split; intros _ x Henc; try intros Hinst;
      rewrite Henc; simpl; try rewrite Hinst; reflexivity.
Qed.

(** *** Format detection *)

(** [except Exception] catches every exception of the model. *)
Lemma every_exn_is_Exception :
  forall e : exn, isinstance e Exception = true.
Proof. intros []; reflexivity. Qed.

(** The detector returns, with one call or with the retry at the default
    frame rate, when the library does not ask for a frame rate that it has
    been given. *)
Lemma get_subtitle_format_returns :
  forall (depth : nat) (t : str) (format : option string) (fps : option Q),
    (2 <= depth)%nat ->
    (forall e,
       SSAFile_from_string rt t format (Some default_fps) = Raise e ->
       isinstance e UnknownFPSError = false) ->
    exists guessed, get_subtitle_format rt depth t format fps = Ret guessed.
Proof.
  intros [|[|depth]] t format fps Hdepth Hknown; [lia|lia|]. simpl.
  destruct (SSAFile_from_string rt t format fps) as [found|e].
  - exists (Some found). reflexivity.
  - destruct (isinstance e UnknownFPSError).
    + destruct (SSAFile_from_string rt t format (Some default_fps))
        as [found|e'] eqn:Hretry.
      * exists (Some found). reflexivity.
      * rewrite (Hknown e' eq_refl), every_exn_is_Exception.
        exists None. reflexivity.
    + rewrite every_exn_is_Exception. exists None. reflexivity.
Qed.

(** *** Validity *)

(** With a cached answer, [is_valid] gives it back and changes nothing,
    whatever the flag. *)
Lemma is_valid_cached :
  forall (auto_fix_srt : bool) (self : Subtitle) (b : bool),
    _is_valid self = Some b ->
    is_valid rt auto_fix_srt self = (Ret b, self).
Proof.
  intros auto_fix_srt self b H.
  unfold is_valid, Method.bind, Method.attr, Method.ret.
  rewrite H. cbn. rewrite H. reflexivity.
Qed.

(** A call of [is_valid] that returns has cached its answer. *)
Lemma is_valid_caches :
  forall (auto_fix_srt : bool) (self : Subtitle) (v : bool) (s1 : Subtitle),
    is_valid rt auto_fix_srt self = (Ret v, s1) ->
    _is_valid s1 = Some v.
Proof.
  intros auto_fix_srt self v s1.
  unfold is_valid, Method.bind, Method.attr, Method.assign, Method.ret.
  destruct (_is_valid self) as [b|] eqn:Hcache.
  - cbn. rewrite Hcache. intros H. injection H as <- <-. exact Hcache.
  - destruct (_check_is_valid rt auto_fix_srt self) as [[valid|e] s2].
    + destruct s2; simpl. intros H. injection H as <- <-. reflexivity.
    + discriminate.
Qed.

(** Reading the text and re-encoding leave the validity flag alone. *)
Lemma text_keeps_validity :
  forall self : Subtitle, _is_valid (snd (text rt self)) = _is_valid self.
Proof.
  intros self.
  unfold text, _decode_content, Method.bind, Method.attr, Method.assign,
    Method.call, Method.ret.
  destruct self as [pn c tx d v g l i lt pl enc f fp em]. simpl.
  destruct d; simpl; [reflexivity|].
  destruct c as [[|b c]|]; simpl; try reflexivity.
  destruct (truthy_str enc); simpl; [|reflexivity].
  destruct enc as [enc|]; simpl; [|reflexivity].
  destruct (bytes_decode rt (b :: c) enc replace); reflexivity.
Qed.

Lemma reencode_keeps_validity :
  forall (target : string) (self : Subtitle),
    _is_valid (snd (reencode rt target self)) = _is_valid self.
Proof.
  intros target self.
  pose proof (text_keeps_validity self) as Hkeep.
  unfold reencode, Method.bind, Method.try_except, Method.call, Method.ret,
    Method.assign.
  destruct (text rt self) as [[[|c t]|e] s1]; simpl in *;
    try exact Hkeep.
  destruct (str_encode rt (c :: t) target) as [new_content|e]; simpl.
  - exact Hkeep.
  - destruct (isinstance e UnicodeEncodeError); exact Hkeep.
Qed.

(** Unfold the first validity check down to the text read, and replace
    the read by what it gave. *)
Ltac step_check :=
  cbn -[get_subtitle_format String.eqb isinstance obind].

Ltac open_first_check Hvalid Htext :=
  unfold is_valid, _check_is_valid, check_known_format, parse_srt,
    Method.bind, Method.attr, Method.assign, Method.call, Method.ret,
    Method.try_except, caught_by;
  rewrite Hvalid, Htext;
  rewrite (text_read_returns _ _ _ Htext);
  step_check.

(** [parse_srt] reads the text and changes nothing else. *)
Lemma parse_srt_reads :
  forall self : Subtitle, snd (parse_srt rt self) = snd (text rt self).
Proof.
  intros self. unfold parse_srt, Method.bind, Method.call.
  destruct (text rt self) as [[t|e] s1]; [|reflexivity]. simpl.
  destruct (obind (srt_parse rt t) (srt_compose rt)); reflexivity.
Qed.

(** The first check of a text that the srt library takes, under the srt
    format, set or detected: it answers true, keeps the detected format,
    and with [auto_fix_srt] stores the recomposed text. *)
Lemma first_check_of_srt :
  forall (auto_fix_srt : bool) (self : Subtitle) (t : str) (s1 : Subtitle)
         (parsed : str),
    _is_valid self = None ->
    text rt self = (Ret t, s1) ->
    t <> [] ->
    subtitle_format self = Some "srt"
    \/ (subtitle_format self = None
        /\ get_subtitle_format rt (recursion_limit rt) t None (fps self)
           = Ret (Some "srt")) ->
    srt_round_trip rt t = Ret parsed ->
    is_valid rt auto_fix_srt self
    = (Ret true,
       with_is_valid (Some true)
         ((if auto_fix_srt then with_text parsed else fun s => s)
            (with_subtitle_format (Some "srt") s1))).
Proof.
  intros auto_fix_srt self t s1 parsed Hvalid Htext Hne Hformat Hround.
  destruct t as [|c t]; [contradiction Hne; reflexivity|].
  unfold srt_round_trip in Hround.
  pose proof (text_read_returns _ _ _ Htext) as Hs1.
  open_first_check Hvalid Htext.
  destruct Hformat as [Hset|[Hunset Hdetected]].
  - rewrite Hset. step_check. rewrite Hset, String.eqb_refl. step_check.
    rewrite Hround.
    destruct self; simpl in Hset; subst.
    destruct auto_fix_srt; reflexivity.
  - rewrite Hunset. step_check. rewrite Hdetected. step_check.
    rewrite String.eqb_refl. step_check.
    rewrite Hround. destruct auto_fix_srt; reflexivity.
Qed.

(** After such a check with [auto_fix_srt], the content is as it was and
    the text reads as the recomposed form. *)
Lemma fixed_text_is_read :
  forall (self : Subtitle) (t : str) (s1 : Subtitle) (parsed : str),
    text rt self = (Ret t, s1) ->
    let fixed :=
      with_is_valid (Some true)
        (with_text parsed (with_subtitle_format (Some "srt") s1)) in
    _content fixed = _content self
    /\ text rt fixed = (Ret parsed, fixed).
Proof.
  intros self t s1 parsed Htext fixed. subst fixed.
  rewrite (text_read_returns _ _ _ Htext). split; reflexivity.
Qed.

(** C10, amended. Once [is_valid] has returned, every later call of it,
    whatever flag it is given and whatever text reads and [reencode],
    [parse_srt] and [guess_encoding] calls come in between, returns the same
    boolean and leaves every attribute, the cached text among them, as it
    was, as long as [clear_content] is not called.  [clear_content] keeps
    the content and forgets the answer: the next [is_valid] is a first check
    again, on the content decoded again, and when the format, set or
    detected, is srt and the round trip returns, it answers true and, given
    [auto_fix_srt], stores the recomposed text.  So [auto_fix_srt] can act
    in the first validity check after the content is assigned or after
    [clear_content] is called. *)
Theorem is_valid_answers_from_cache :
  forall (first : bool) (self : Subtitle) (v : bool) (s1 : Subtitle),
    is_valid rt first self = (Ret v, s1) ->
    is_valid rt true s1 = (Ret v, s1)
    /\ (forall calls : list later_call,
          forallb keeps_validity calls = true ->
          fst (later_calls rt calls s1)
          = map (fun _ => Ret v) (filter is_validity_call calls)
          /\ snd (later_calls rt calls s1)
             = snd (later_calls rt
                      (filter (fun c => negb (is_validity_call c)) calls) s1)
          /\ (forallb is_validity_call calls = true ->
              snd (later_calls rt calls s1) = s1))
    /\ (forall calls : list later_call,
          let before := snd (later_calls rt calls s1) in
          let cleared := snd (clear_content before) in
          _content cleared = _content before
          /\ _is_valid cleared = None
          /\ (forall (t : str) (s2 : Subtitle) (parsed : str),
                text rt cleared = (Ret t, s2) ->
                t <> [] ->
                subtitle_format before = Some "srt"
                \/ (subtitle_format before = None
                    /\ get_subtitle_format rt (recursion_limit rt) t None
                         (fps before)
                       = Ret (Some "srt")) ->
                srt_round_trip rt t = Ret parsed ->
                let fixed := snd (is_valid rt true cleared) in
                fst (is_valid rt true cleared) = Ret true
                /\ _content fixed = _content before
                /\ text rt fixed = (Ret parsed, fixed)
                /\ fst (text rt (snd (is_valid rt false cleared)))
                   = Ret t)).
Proof.
  intros first self v s1 Hfirst.
  pose proof (is_valid_caches _ _ _ _ Hfirst) as Hcache.
  split; [exact (is_valid_cached true s1 v Hcache)|].
  clear Hfirst. split.
  - intros calls. revert s1 Hcache.
    induction calls as [|[flag| |target| | |] calls IH];
      intros s1 Hcache Hkeeps; simpl in *.
    + repeat split.
    + rewrite (is_valid_cached flag s1 v Hcache). simpl.
      destruct (IH s1 Hcache Hkeeps) as [Hanswers [Hstate Hsame]].
      rewrite Hanswers. repeat split; assumption.
    + assert (Hcache' : _is_valid (snd (text rt s1)) = Some v)
        by (rewrite text_keeps_validity; exact Hcache).
      destruct (IH _ Hcache' Hkeeps) as [Hanswers [Hstate _]].
      split; [exact Hanswers|]. split; [exact Hstate|]. discriminate.
    + assert (Hcache' : _is_valid (snd (reencode rt target s1)) = Some v)
        by (rewrite reencode_keeps_validity; exact Hcache).
      destruct (IH _ Hcache' Hkeeps) as [Hanswers [Hstate _]].
      split; [exact Hanswers|]. split; [exact Hstate|]. discriminate.
    + assert (Hcache' : _is_valid (snd (parse_srt rt s1)) = Some v)
        by (rewrite parse_srt_reads, text_keeps_validity; exact Hcache).
      destruct (IH _ Hcache' Hkeeps) as [Hanswers [Hstate _]].
      split; [exact Hanswers|]. split; [exact Hstate|]. discriminate.
    + assert (Hcache' : _is_valid (snd (guess_encoding rt s1)) = Some v)
        by (rewrite guess_encoding_keeps; exact Hcache).
      destruct (IH _ Hcache' Hkeeps) as [Hanswers [Hstate _]].
      split; [exact Hanswers|]. split; [exact Hstate|]. discriminate.
    + discriminate Hkeeps.
  - intros calls before cleared.
    split; [reflexivity|]. split; [reflexivity|].
    intros t s2 parsed Htext Hne Hformat Hround fixed.
    assert (Hvalid : _is_valid cleared = None) by reflexivity.
    assert (Hformat' :
      subtitle_format cleared = Some "srt"
      \/ (subtitle_format cleared = None
          /\ get_subtitle_format rt (recursion_limit rt) t None (fps cleared)
             = Ret (Some "srt"))) by exact Hformat.
    subst fixed.
    rewrite (first_check_of_srt true cleared t s2 parsed
               Hvalid Htext Hne Hformat' Hround).
    rewrite (first_check_of_srt false cleared t s2 parsed
               Hvalid Htext Hne Hformat' Hround).
    cbn [fst snd].
    destruct (fixed_text_is_read cleared t s2 parsed Htext)
      as [Hcontent Hread].
    split; [reflexivity|]. split; [exact Hcontent|].
    split; [exact Hread|].
    rewrite (text_read_returns _ _ _ Htext). reflexivity.
Qed.

(** C4. On the first check, [is_valid] returns false when the decoded text
    is empty, or when the format is not set and the detector does not
    classify the text; when the format, set or detected, is srt, it
    returns true exactly when the parse-then-compose round trip succeeds,
    and then, if [auto_fix_srt] is true, the cached text becomes the
    recomposed form; any other format gives true with no further check. *)
Theorem is_valid_first_check :
  forall (auto_fix_srt : bool) (self : Subtitle) (t : str) (s1 : Subtitle),
    _is_valid self = None ->
    text rt self = (Ret t, s1) ->
    let r := is_valid rt auto_fix_srt self in
    let detected :=
      get_subtitle_format rt (recursion_limit rt) t None (fps self) in
    (t = [] -> r = (Ret false, with_is_valid (Some false) s1))
    /\ (t <> [] ->
        subtitle_format self = None ->
        forall guessed,
          detected = Ret guessed -> truthy_str guessed = false ->
          r = (Ret false, with_is_valid (Some false) s1))
    /\ (t <> [] ->
        subtitle_format self = Some "srt"
        \/ (subtitle_format self = None /\ detected = Ret (Some "srt")) ->
        (forall parsed,
           srt_round_trip rt t = Ret parsed ->
           fst r = Ret true
           /\ _text (snd r) = (if auto_fix_srt then parsed else t)
           /\ _is_valid (snd r) = Some true
           /\ subtitle_format (snd r) = Some "srt")
        /\ (forall e,
              srt_round_trip rt t = Raise e ->
              fst r = Ret false
              /\ _text (snd r) = t
              /\ _is_valid (snd r) = Some false
              /\ subtitle_format (snd r) = Some "srt"))
    /\ (t <> [] ->
        forall format,
          format <> "srt" ->
          subtitle_format self = Some format
          \/ (subtitle_format self = None
              /\ detected = Ret (Some format) /\ format <> "") ->
          fst r = Ret true
          /\ _text (snd r) = t
          /\ _is_valid (snd r) = Some true
          /\ subtitle_format (snd r) = Some format).
Proof.
  intros auto_fix_srt self t s1 Hvalid Htext r detected.
  subst r detected.
  split; [|split; [|split]].
  - intros ->. open_first_check Hvalid Htext. reflexivity.
  - intros Hne Hformat guessed Hdetect Hfalsy.
    destruct t as [|c t]; [contradiction Hne; reflexivity|].
    open_first_check Hvalid Htext.
    rewrite Hformat. step_check.
    rewrite Hdetect, Hfalsy. reflexivity.
  - intros Hne Hsrt.
    assert (Hround :
      forall o, srt_round_trip rt t = o ->
        let r := is_valid rt auto_fix_srt self in
        match o with
        | Ret parsed =>
            fst r = Ret true
            /\ _text (snd r) = (if auto_fix_srt then parsed else t)
            /\ _is_valid (snd r) = Some true
            /\ subtitle_format (snd r) = Some "srt"
        | Raise _ =>
            fst r = Ret false
            /\ _text (snd r) = t
            /\ _is_valid (snd r) = Some false
            /\ subtitle_format (snd r) = Some "srt"
        end).
    { intros o Ho. unfold srt_round_trip in Ho.
      destruct t as [|c t]; [contradiction Hne; reflexivity|].
      open_first_check Hvalid Htext.
      destruct Hsrt as [Hformat|[Hformat Hdetect]].
      - rewrite Hformat. step_check. rewrite Hformat.
        rewrite String.eqb_refl. step_check. rewrite Ho.
        destruct o as [parsed|e].
        + destruct auto_fix_srt; step_check; repeat split; exact Hformat.
        + rewrite every_exn_is_Exception. step_check.
          repeat split; exact Hformat.
      - rewrite Hformat. step_check.
        rewrite Hdetect. step_check.
        rewrite String.eqb_refl. step_check. rewrite Ho.
        destruct o as [parsed|e].
        + destruct auto_fix_srt; step_check; repeat split.
        + rewrite every_exn_is_Exception. step_check. repeat split. }
    split.
    + intros parsed Hparsed. exact (Hround _ Hparsed).
    + intros e He. exact (Hround _ He).
  - intros Hne format Hother Hformat.
    apply String.eqb_neq in Hother.
    destruct t as [|c t]; [contradiction Hne; reflexivity|].
    open_first_check Hvalid Htext.
    destruct Hformat as [Hformat|[Hformat [Hdetect Hnonempty]]].
    + rewrite Hformat. step_check. rewrite Hformat, Hother.
      repeat split. step_check. exact Hformat.
    + rewrite Hformat. step_check.
      rewrite Hdetect.
      destruct format as [|a format]; [contradiction Hnonempty; reflexivity|].
      step_check. rewrite Hother. repeat split.
Qed.

(** *** Paths *)




(** *** Construction *)

(** What [__init__] does with the encoding it is given, by what the codec
    lookup gives. *)
Lemma init_validates_encoding :
  forall (a : init_args) (name : string),
    arg_encoding a = Some name ->
    name <> "" ->
    (forall canonical,
       codecs_lookup rt name = Ret canonical ->
       __init__ rt a
       = (Ret tt, with_encoding (Some canonical) (init_attributes a)))
    /\ (forall e,
          codecs_lookup rt name = Raise e ->
          caught_by [TypeError; LookupError] e = true ->
          __init__ rt a = (Ret tt, init_attributes a))
    /\ (forall e,
          codecs_lookup rt name = Raise e ->
          caught_by [TypeError; LookupError] e = false ->
          __init__ rt a = (Raise e, init_attributes a)).
Proof.
  intros a name Harg Hname.
  unfold __init__, validate_encoding. rewrite Harg.
  destruct name as [|c name]; [contradiction Hname; reflexivity|].
  unfold Method.try_except, Method.bind, Method.call, Method.assign,
    Method.ret.
  cbn -[caught_by].
  repeat split; intros x Hlookup; try intros Hcaught;
    rewrite Hlookup; try rewrite Hcaught; reflexivity.
Qed.

Lemma init_without_encoding :
  forall a : init_args,
    arg_encoding a = None \/ arg_encoding a = Some "" ->
    __init__ rt a = (Ret tt, init_attributes a).
Proof.
  intros a [H|H]; unfold __init__, validate_encoding; rewrite H;
    reflexivity.
Qed.

(** [__init__] sets the guessing flag from its argument. *)
Lemma init_guess_flag :
  forall a : init_args,
    _guess_encoding (snd (__init__ rt a)) = arg_guess_encoding a.
Proof.
  intros a.
  unfold __init__, validate_encoding, Method.try_except, Method.bind,
    Method.call, Method.assign, Method.ret.
  destruct (truthy_str (arg_encoding a)); [|reflexivity].
  destruct (arg_encoding a) as [name|]; [|reflexivity].
  destruct (codecs_lookup rt name) as [canonical|e]; cbn -[caught_by].
  - reflexivity.
  - destruct (caught_by [TypeError; LookupError] e); reflexivity.
Qed.

(** [__init__] sets the identity from its arguments, whatever the lookup
    of the encoding does. *)
Lemma init_identity :
  forall (a : init_args) (o : outcome unit) (self : Subtitle),
    __init__ rt a = (o, self) ->
    provider_name self = arg_provider_name a
    /\ subtitle_id self = arg_subtitle_id a.
Proof.
  intros a o self.
  unfold __init__, validate_encoding, Method.try_except, Method.bind,
    Method.call, Method.assign, Method.ret.
  destruct (truthy_str (arg_encoding a)).
  - destruct (arg_encoding a) as [name|].
    + destruct (codecs_lookup rt name) as [canonical|e]; cbn -[caught_by].
      * intros H. injection H as _ <-. split; reflexivity.
      * destruct (caught_by [TypeError; LookupError] e);
          intros H; injection H as _ <-; split; reflexivity.
    + intros H. injection H as _ <-. split; reflexivity.
  - intros H. injection H as _ <-. split; reflexivity.
Qed.

(** *** Equality and hash *)

(** Assigning the content keeps the identity. *)
Lemma set_content_identity :
  forall (value : option bytes) (self : Subtitle),
    provider_name (snd (set_content rt value self)) = provider_name self
    /\ subtitle_id (snd (set_content rt value self)) = subtitle_id self.
Proof.
  intros value self.
  unfold set_content, clear_content, Method.bind, Method.attr,
    Method.assign, Method.ret.
  cbn -[guess_encoding].
  destruct (_guess_encoding self); [|split; reflexivity].
  destruct (encoding self); [split; reflexivity|].
  match goal with
  | |- context [guess_encoding rt ?s] =>
      pose proof (guess_encoding_keeps s) as Hkeep;
      destruct (guess_encoding rt s) as [[guessed|e] after]
  end; simpl in Hkeep; subst after; split; reflexivity.
Qed.

Lemma attributes_new :
  forall (h : Instances.heap) (self : Subtitle),
    Instances.attributes (h ++ [self]) (List.length h) = Some self.
Proof.
  intros h self. unfold Instances.attributes.
  rewrite nth_error_app2 by lia.
  rewrite Nat.sub_diag. reflexivity.
Qed.

Lemma attributes_old :
  forall (h : Instances.heap) (self : Subtitle) (r : Instances.ref),
    (r < List.length h)%nat ->
    Instances.attributes (h ++ [self]) r = Instances.attributes h r.
Proof.
  intros h self r Hr. unfold Instances.attributes.
  apply nth_error_app1. exact Hr.
Qed.

Lemma attributes_store_same :
  forall (h : Instances.heap) (r : Instances.ref) (old self : Subtitle),
    Instances.attributes h r = Some old ->
    Instances.attributes (Instances.store h r self) r = Some self.
Proof.
  unfold Instances.attributes.
  induction h as [|x h IH]; intros [|r] old self H; simpl in *;
    try discriminate.
  - reflexivity.
  - apply (IH r old self H).
Qed.

Lemma attributes_store_other :
  forall (h : Instances.heap) (r r' : Instances.ref) (self : Subtitle),
    r <> r' ->
    Instances.attributes (Instances.store h r self) r'
    = Instances.attributes h r'.
Proof.
  unfold Instances.attributes.
  induction h as [|x h IH]; intros [|r] [|r'] self Hne; simpl;
    try reflexivity.
  - contradiction Hne. reflexivity.
  - apply IH. intros ->. apply Hne. reflexivity.
Qed.

(** What [new] gives: the next identity, and a heap with one more
    instance, initialised from the arguments. *)
Lemma new_returns :
  forall (a : init_args) (h h' : Instances.heap) (r : Instances.ref),
    Instances.new rt a h = (Ret r, h') ->
    r = List.length h
    /\ exists self,
         h' = (h ++ [self])%list
         /\ provider_name self = arg_provider_name a
         /\ subtitle_id self = arg_subtitle_id a.
Proof.
  intros a h h' r. unfold Instances.new.
  destruct (__init__ rt a) as [[u|e] self] eqn:Hinit; [|discriminate].
  intros H. injection H as <- <-.
  split; [reflexivity|]. exists self. split; [reflexivity|].
  exact (init_identity _ _ _ Hinit).
Qed.

(** Calling the content setter on an instance keeps its identity and
    leaves the other instances alone. *)
Lemma invoke_set_content :
  forall (h : Instances.heap) (r : Instances.ref) (value : option bytes)
         (self : Subtitle),
    Instances.attributes h r = Some self ->
    let h' := snd (Instances.invoke (set_content rt value) r h) in
    (exists self',
       Instances.attributes h' r = Some self'
       /\ provider_name self' = provider_name self
       /\ subtitle_id self' = subtitle_id self)
    /\ (forall r', r <> r' ->
          Instances.attributes h' r' = Instances.attributes h r').
Proof.
  intros h r value self Hattr h'. subst h'.
  unfold Instances.invoke. rewrite Hattr. simpl. split.
  - exists (snd (set_content rt value self)).
    split; [apply (attributes_store_same _ _ self), Hattr|].
    apply set_content_identity.
  - intros r' Hne. apply attributes_store_other, Hne.
Qed.

(** C3, amended. Two instances made with the same provider name and the
    same id have the same hash, that of the provider name, a dash and the
    id, whatever content they are given.  The class defines no [__eq__]:
    an instance is equal to itself, and two instances are never equal,
    whether their ids are the same or differ. *)
Theorem instances_hash_by_id_equal_by_identity :
  forall (h : Instances.heap) (a1 a2 : init_args)
         (r1 r2 : Instances.ref) (h1 h2 : Instances.heap),
    Instances.new rt a1 h = (Ret r1, h1) ->
    Instances.new rt a2 h1 = (Ret r2, h2) ->
    Instances.eq r1 r2 = false
    /\ Instances.eq r1 r1 = true
    /\ Instances.eq r2 r2 = true
    /\ (arg_provider_name a1 = arg_provider_name a2 ->
        arg_subtitle_id a1 = arg_subtitle_id a2 ->
        forall c1 c2 : option bytes,
          let h3 := snd (Instances.invoke (set_content rt c1) r1 h2) in
          let h4 := snd (Instances.invoke (set_content rt c2) r2 h3) in
          Instances.hash rt h4 r1 = Instances.hash rt h4 r2
          /\ Instances.hash rt h4 r1
             = Some (hash_str rt (arg_provider_name a1 ++ "-"
                                  ++ arg_subtitle_id a1)%string)).
Proof.
  intros h a1 a2 r1 r2 h1 h2 Hnew1 Hnew2.
  destruct (new_returns _ _ _ _ Hnew1) as [Hr1 [self1 [Hh1 [Hp1 Hi1]]]].
  destruct (new_returns _ _ _ _ Hnew2) as [Hr2 [self2 [Hh2 [Hp2 Hi2]]]].
  assert (Hlen : List.length h1 = S (List.length h)).
  { rewrite Hh1, length_app. simpl. lia. }
  assert (Hne : r1 <> r2) by lia.
  unfold Instances.eq.
  split; [apply Nat.eqb_neq, Hne|].
  split; [apply Nat.eqb_refl|]. split; [apply Nat.eqb_refl|].
  intros Hprovider Hid c1 c2.
  set (h3 := snd (Instances.invoke (set_content rt c1) r1 h2)).
  set (h4 := snd (Instances.invoke (set_content rt c2) r2 h3)).
  assert (Hat1 : Instances.attributes h2 r1 = Some self1).
  { rewrite Hh2, attributes_old by lia.
    rewrite Hh1, Hr1. apply attributes_new. }
  assert (Hat2 : Instances.attributes h2 r2 = Some self2).
  { rewrite Hh2, Hr2. apply attributes_new. }
  destruct (invoke_set_content h2 r1 c1 self1 Hat1)
    as [[self1' [Hat1' [Hp1' Hi1']]] Hother1].
  fold h3 in Hat1', Hother1.
  assert (Hat2' : Instances.attributes h3 r2 = Some self2).
  { rewrite (Hother1 r2 Hne). exact Hat2. }
  destruct (invoke_set_content h3 r2 c2 self2 Hat2')
    as [[self2' [Hat2'' [Hp2' Hi2']]] Hother2].
  fold h4 in Hat2'', Hother2.
  assert (Hat1'' : Instances.attributes h4 r1 = Some self1').
  { rewrite (Hother2 r1) by (intros Heq; apply Hne; symmetry; exact Heq).
    exact Hat1'. }
  unfold Instances.hash. rewrite Hat1'', Hat2''. simpl.
  unfold __hash__, id.
  rewrite Hp1', Hi1', Hp2', Hi2', Hp1, Hi1, Hp2, Hi2, Hprovider, Hid.
  split; reflexivity.
Qed.

End Properties.

(** ** The properties on the sample subtitles *)

(** The classifier on three pairs of flags. *)
Lemma from_flags_priority_witness :
  LanguageType.from_flags (Some true) (Some true)
  = LanguageType.HEARING_IMPAIRED
  /\ LanguageType.from_flags (Some false) (Some true) = LanguageType.FORCED
  /\ LanguageType.from_flags None (Some false) = LanguageType.NORMAL
  /\ LanguageType.from_flags None None = LanguageType.UNKNOWN.
Proof.
  split; [|split; [|split]].
  - apply (proj1 (from_flags_priority (Some true) (Some true))).
    reflexivity.
  - apply (proj1 (proj2 (from_flags_priority (Some false) (Some true)))).
    + discriminate.
    + reflexivity.
  - apply (proj1 (proj2 (proj2 (from_flags_priority None (Some false))))).
    + discriminate.
    + discriminate.
    + right. reflexivity.
  - apply (proj2 (proj2 (proj2 (from_flags_priority None None))));
      reflexivity.
Defined.

(** A UTF-16LE mark is found as such, and a UTF-32LE mark is not taken for
    it. *)
Lemma find_encoding_with_bom_first_mark_witness :
  find_encoding_with_bom [xff; xfe; x41; x00] = ["utf-16-le"]
  /\ find_encoding_with_bom [xff; xfe; x00; x00; x41; x00; x00; x00]
     = ["utf-32-le"]
  /\ find_encoding_with_bom Examples.hello = [].
Proof.
  split; [|split].
  - apply (proj1 (proj2 (proj2
             (find_encoding_with_bom_first_mark [xff; xfe; x41; x00])))
             [(BOM_UTF8, "utf-8-sig"); (BOM_UTF32_BE, "utf-32-be");
              (BOM_UTF32_LE, "utf-32-le"); (BOM_UTF16_BE, "utf-16-be")]
             BOM_UTF16_LE "utf-16-le" []).
    + reflexivity.
    + intros e He. simpl in He.
      repeat (destruct He as [<-|He]; [reflexivity|]). contradiction.
    + reflexivity.
  - apply (proj2 (proj2 (proj2 (proj2
             (find_encoding_with_bom_first_mark
                [xff; xfe; x00; x00; x41; x00; x00; x00]))))).
    reflexivity.
  - apply (proj1 (proj2 (proj2 (proj2
             (find_encoding_with_bom_first_mark Examples.hello))))).
    intros e He. simpl in He.
    repeat (destruct He as [<-|He]; [reflexivity|]). contradiction.
Defined.

(** Cyrillic text in windows-1251 is not taken for UTF-8 and is found by
    the language; a stray octet goes through every candidate to the
    detector, which does not know. *)
Lemma guess_encoding_first_accepted_candidate_witness :
  let privet :=
    with_content (Some Examples.privet_cp1251)
      (Examples.fresh Examples.russian) in
  let stray :=
    with_content (Some Examples.stray_octet)
      (Examples.fresh Examples.russian) in
  (skipped Mini.runtime Examples.privet_cp1251 "utf-8" = true
   /\ accepted Mini.runtime Examples.privet_cp1251 "windows-1251" = true
   /\ guess_encoding Mini.runtime privet = (Ret (Some "windows-1251"), privet))
  /\ (forallb (skipped Mini.runtime Examples.stray_octet)
        ["utf-8"; "windows-1251"; "iso-8859-5"] = true
      /\ guess_encoding Mini.runtime stray = (Ret None, stray)).
Proof.
  intros privet stray. split.
  - split; [vm_compute; reflexivity|]. split; [vm_compute; reflexivity|].
    apply (proj1 (proj2
             (guess_encoding_first_accepted_candidate Mini.runtime privet
                Examples.privet_cp1251 eq_refl))
             ["utf-8"] "windows-1251" ["iso-8859-5"]).
    + reflexivity.
    + vm_compute. reflexivity.
    + vm_compute. reflexivity.
  - split; [vm_compute; reflexivity|].
    apply (proj1 (proj2 (proj2
             (guess_encoding_first_accepted_candidate Mini.runtime stray
                Examples.stray_octet eq_refl)))).
    vm_compute. reflexivity.
Defined.

(** Re-encoding "Hello" to Latin-1 succeeds; to a name that is no codec,
    the lookup error goes to the caller; Cyrillic text does not fit ASCII
    and is left as it is. *)
Lemma reencode_outcomes_witness :
  let hello := Examples.loaded Examples.english Examples.hello in
  let hello' := snd (text Mini.runtime hello) in
  let privet := Examples.loaded Examples.russian Examples.privet_cp1251 in
  let privet' := snd (text Mini.runtime privet) in
  text Mini.runtime hello = (Ret (Mini.lit "Hello"), hello')
  /\ reencode Mini.runtime "latin-1" hello
     = (Ret true,
        with_content (Some Examples.hello)
          (with_encoding (Some "latin-1") hello'))
  /\ reencode Mini.runtime "no-such-codec" hello = (Raise LookupError, hello')
  /\ reencode Mini.runtime "ascii" privet = (Ret false, privet').
Proof.
  intros hello hello' privet privet'.
  assert (Hhello : text Mini.runtime hello = (Ret (Mini.lit "Hello"), hello'))
    by (vm_compute; reflexivity).
  assert (Hprivet :
    text Mini.runtime privet
    = (Ret [1055; 1088; 1080; 1074; 1077; 1090]%N, privet'))
    by (vm_compute; reflexivity).
  split; [exact Hhello|]. split; [|split].
  - apply (proj1 (proj2 (proj2 (proj2
             (reencode_outcomes Mini.runtime "latin-1" hello _ _ Hhello))))).
    + discriminate.
    + vm_compute. reflexivity.
  - apply (proj2 (proj2 (proj2 (proj2
             (reencode_outcomes Mini.runtime "no-such-codec" hello _ _
                Hhello))))).
    + discriminate.
    + vm_compute. reflexivity.
    + reflexivity.
  - apply (proj1 (proj2 (proj2
             (reencode_outcomes Mini.runtime "ascii" privet _ _ Hprivet)))
             ltac:(discriminate) UnicodeEncodeError).
    + vm_compute. reflexivity.
    + reflexivity.
Defined.

(** C2, as worded, fails: with a text to encode and a name that is no
    codec, [reencode] neither returns true nor returns false; it raises. *)
Lemma reencode_never_raises_counterexample :
  ~ reencode_never_raises Mini.runtime.
Proof.
  intros claim.
  pose (hello := Examples.loaded Examples.english Examples.hello).
  assert (Hhello :
    text Mini.runtime hello
    = (Ret (Mini.lit "Hello"), snd (text Mini.runtime hello)))
    by (vm_compute; reflexivity).
  destruct (claim "no-such-codec" hello _ _ Hhello) as [_ Hotherwise].
  destruct Hotherwise as [new_content [Hencoded _]].
  - intros [Hempty|[e [Hraise Hinstance]]].
    + discriminate Hempty.
    + vm_compute in Hraise. injection Hraise as <-.
      vm_compute in Hinstance. discriminate Hinstance.
  - vm_compute in Hencoded. discriminate Hencoded.
Qed.

(** Two instances made alike, and given different contents, hash alike and
    are not equal. *)
Lemma instances_hash_by_id_equal_by_identity_witness :
  let a := Examples.plain_args Examples.english in
  let made := Instances.new Mini.runtime a [] in
  let made' := Instances.new Mini.runtime a (snd made) in
  let h3 :=
    snd (Instances.invoke
           (set_content Mini.runtime (Some Examples.hello)) 0
           (snd made')) in
  let h4 :=
    snd (Instances.invoke
           (set_content Mini.runtime (Some Examples.one_cue)) 1 h3) in
  made = (Ret 0, snd made)
  /\ made' = (Ret 1, snd made')
  /\ Instances.eq 0 1 = false
  /\ Instances.hash Mini.runtime h4 0 = Instances.hash Mini.runtime h4 1.
Proof.
  intros a made made' h3 h4.
  assert (H0 : made = (Ret 0, snd made)) by reflexivity.
  assert (H1 : made' = (Ret 1, snd made')) by reflexivity.
  split; [exact H0|]. split; [exact H1|].
  pose proof (instances_hash_by_id_equal_by_identity Mini.runtime
                [] a a 0 1 (snd made) (snd made') H0 H1)
    as [Hneq [_ [_ Hhash]]].
  split; [exact Hneq|].
  exact (proj1 (Hhash eq_refl eq_refl (Some Examples.hello)
                  (Some Examples.one_cue))).
Defined.

(** C3, as worded, fails: two instances made with the same provider name
    and the same id are not equal. *)
Lemma equal_by_provider_and_id_counterexample :
  ~ equal_by_provider_and_id Mini.runtime.
Proof.
  intros claim.
  pose (a := Examples.plain_args Examples.english).
  pose (made := Instances.new Mini.runtime a []).
  pose (made' := Instances.new Mini.runtime a (snd made)).
  assert (Heq : Instances.eq 0 1 = true).
  { apply (proj1 (claim [] a a 0 1 (snd made) (snd made')
                    eq_refl eq_refl));
      reflexivity. }
  discriminate Heq.
Qed.

(** A cue numbered 7 is valid, and [auto_fix_srt] stores it as the composer
    writes it, numbered 1; text with an arrow and no timing is not valid;
    a frame-based text is valid with no further check; an empty content is
    not valid. *)
Lemma is_valid_first_check_witness :
  let cue := Examples.loaded Examples.english Examples.one_cue in
  let broken :=
    Examples.loaded Examples.english (Examples.ascii_bytes "1 --> 2") in
  let frames :=
    Examples.loaded Examples.english (Examples.ascii_bytes "{1}{2}Hello") in
  let empty := Examples.loaded Examples.english [] in
  (_is_valid cue = None
   /\ subtitle_format cue = None
   /\ fst (is_valid Mini.runtime true cue) = Ret true
   /\ _text (snd (is_valid Mini.runtime true cue))
      = Examples.one_cue_recomposed)
  /\ fst (is_valid Mini.runtime true broken) = Ret false
  /\ fst (is_valid Mini.runtime true frames) = Ret true
  /\ fst (is_valid Mini.runtime true empty) = Ret false.
Proof.
  intros cue broken frames empty.
  pose (cue_text :=
    Mini.lit ("7" ++ Examples.NL ++ "00:00:01,000 --> 00:00:02,500"
              ++ Examples.NL ++ "Hello")%string).
  assert (Hcue :
    text Mini.runtime cue = (Ret cue_text, snd (text Mini.runtime cue)))
    by (vm_compute; reflexivity).
  assert (Hbroken :
    text Mini.runtime broken
    = (Ret (Mini.lit "1 --> 2"), snd (text Mini.runtime broken)))
    by (vm_compute; reflexivity).
  assert (Hframes :
    text Mini.runtime frames
    = (Ret (Mini.lit "{1}{2}Hello"), snd (text Mini.runtime frames)))
    by (vm_compute; reflexivity).
  assert (Hempty :
    text Mini.runtime empty = (Ret [], snd (text Mini.runtime empty)))
    by (vm_compute; reflexivity).
  split; [|split; [|split]].
  - split; [reflexivity|]. split; [reflexivity|].
    pose proof (is_valid_first_check Mini.runtime true cue cue_text _
                  eq_refl Hcue) as Hcheck.
    cbv zeta in Hcheck. destruct Hcheck as [_ [_ [Hsrt _]]].
    assert (Hdetected :
      subtitle_format cue = Some "srt"
      \/ (subtitle_format cue = None
          /\ get_subtitle_format Mini.runtime
               (recursion_limit Mini.runtime) cue_text None (fps cue)
             = Ret (Some "srt"))).
    { right. split; [reflexivity|]. vm_compute. reflexivity. }
    assert (Hnonempty : cue_text <> []) by discriminate.
    destruct (Hsrt Hnonempty Hdetected) as [Hround _].
    assert (Hparsed :
      srt_round_trip Mini.runtime cue_text
      = Ret Examples.one_cue_recomposed) by (vm_compute; reflexivity).
    destruct (Hround _ Hparsed) as [Hresult [Htext _]].
    split; [exact Hresult|exact Htext].
  - pose proof (is_valid_first_check Mini.runtime true broken
                  (Mini.lit "1 --> 2") _ eq_refl Hbroken) as Hcheck.
    cbv zeta in Hcheck. destruct Hcheck as [_ [_ [Hsrt _]]].
    assert (Hdetected :
      subtitle_format broken = Some "srt"
      \/ (subtitle_format broken = None
          /\ get_subtitle_format Mini.runtime
               (recursion_limit Mini.runtime) (Mini.lit "1 --> 2") None
               (fps broken)
             = Ret (Some "srt"))).
    { right. split; [reflexivity|]. vm_compute. reflexivity. }
    assert (Hnonempty : Mini.lit "1 --> 2" <> []) by discriminate.
    destruct (Hsrt Hnonempty Hdetected) as [_ Hfails].
    assert (Hraised :
      srt_round_trip Mini.runtime (Mini.lit "1 --> 2") = Raise Exception)
      by (vm_compute; reflexivity).
    exact (proj1 (Hfails _ Hraised)).
  - pose proof (is_valid_first_check Mini.runtime true frames
                  (Mini.lit "{1}{2}Hello") _ eq_refl Hframes) as Hcheck.
    cbv zeta in Hcheck. destruct Hcheck as [_ [_ [_ Hother]]].
    assert (Hnonempty : Mini.lit "{1}{2}Hello" <> []) by discriminate.
    assert (Hnot_srt : "microdvd" <> "srt") by discriminate.
    refine (proj1 (Hother Hnonempty "microdvd" Hnot_srt _)).
    right. split; [reflexivity|]. split; [|discriminate].
    vm_compute. reflexivity.
  - pose proof (is_valid_first_check Mini.runtime true empty [] _
                  eq_refl Hempty) as Hcheck.
    cbv zeta in Hcheck. destruct Hcheck as [Hfalse _].
    rewrite (Hfalse eq_refl). reflexivity.
Defined.

(** After a first check without the flag, calls with the flag answer the
    same, whatever reads and re-encodings come in between, and leave the
    text numbered 7; after [clear_content], a call with the flag answers
    true again and the text reads as recomposed. *)
Lemma is_valid_answers_from_cache_witness :
  let cue := Examples.loaded Examples.english Examples.one_cue in
  let checked := snd (is_valid Mini.runtime false cue) in
  let calls :=
    [call_is_valid true; read_text; call_reencode "latin-1";
     call_parse_srt; call_is_valid false; call_guess_encoding;
     call_is_valid true] in
  let cleared := snd (clear_content checked) in
  is_valid Mini.runtime false cue = (Ret true, checked)
  /\ is_valid Mini.runtime true checked = (Ret true, checked)
  /\ fst (later_calls Mini.runtime calls checked)
     = [Ret true; Ret true; Ret true]
  /\ _text (snd (later_calls Mini.runtime calls checked)) = _text checked
  /\ _content cleared = Some Examples.one_cue
  /\ fst (is_valid Mini.runtime true cleared) = Ret true
  /\ fst (text Mini.runtime (snd (is_valid Mini.runtime true cleared)))
     = Ret Examples.one_cue_recomposed.
Proof.
  intros cue checked calls cleared.
  assert (Hfirst : is_valid Mini.runtime false cue = (Ret true, checked))
    by (vm_compute; reflexivity).
  split; [exact Hfirst|].
  destruct (is_valid_answers_from_cache Mini.runtime false cue true checked
              Hfirst) as [Hagain [Hlater Hcleared]].
  split; [exact Hagain|].
  assert (Hkeeps : forallb keeps_validity calls = true) by reflexivity.
  destruct (Hlater calls Hkeeps) as [Hanswers [Hstate _]].
  split; [exact Hanswers|].
  split; [rewrite Hstate; vm_compute; reflexivity|].
  destruct (Hcleared []) as [Hcontent [_ Hcheck]].
  cbn [later_calls snd] in Hcontent, Hcheck. fold cleared in Hcontent, Hcheck.
  split; [rewrite Hcontent; vm_compute; reflexivity|].
  assert (Htext :
    text Mini.runtime cleared
    = (Ret Samples.cue_text, snd (text Mini.runtime cleared)))
    by (vm_compute; reflexivity).
  assert (Hne : Samples.cue_text <> []) by discriminate.
  assert (Hformat : subtitle_format checked = Some "srt")
    by (vm_compute; reflexivity).
  assert (Hround :
    srt_round_trip Mini.runtime Samples.cue_text
    = Ret Examples.one_cue_recomposed) by (vm_compute; reflexivity).
  destruct (Hcheck _ _ _ Htext Hne (or_introl Hformat) Hround)
    as [Htrue [_ [Hread _]]].
  split; [exact Htrue|]. rewrite Hread. reflexivity.
Defined.

(** C10, as worded, fails: [clear_content] leaves the content as it was,
    and the call of [is_valid] with [auto_fix_srt] that follows answers true
    as before but turns the text numbered 7 into the recomposed one. *)
Lemma cached_while_content_unchanged_counterexample :
  ~ cached_while_content_unchanged Mini.runtime.
Proof.
  intros claim.
  pose (cue := Examples.loaded Examples.english Examples.one_cue).
  pose (checked := snd (is_valid Mini.runtime false cue)).
  assert (Hfirst : is_valid Mini.runtime false cue = (Ret true, checked))
    by (vm_compute; reflexivity).
  assert (Hcontent :
    _content (snd (later_calls Mini.runtime [call_clear_content] checked))
    = _content checked) by (vm_compute; reflexivity).
  destruct (claim false cue true checked [call_clear_content] true
              Hfirst Hcontent) as [_ Hsame].
  vm_compute in Hsame. discriminate Hsame.
Qed.

(** Assigning Cyrillic bytes to a fresh subtitle guesses windows-1251 and
    the text reads as "Привет"; with an encoding set, or with guessing
    disabled, nothing is guessed. *)
Lemma content_setter_clears_and_guesses_witness :
  let fresh := Examples.fresh Examples.russian in
  let preset := with_encoding (Some "iso8859-5") fresh in
  let value := Some Examples.privet_cp1251 in
  (encoding (snd (set_content Mini.runtime value fresh))
   = Some "windows-1251"
   /\ fst (text Mini.runtime (snd (set_content Mini.runtime value fresh)))
      = Ret [1055; 1088; 1080; 1074; 1077; 1090]%N)
  /\ encoding (snd (set_content Mini.runtime value preset))
     = Some "iso8859-5".
Proof.
  intros fresh preset value.
  pose proof (content_setter_clears_and_guesses Mini.runtime value fresh)
    as [_ [_ [_ [_ [_ [Htext [Hguess _]]]]]]].
  pose proof (content_setter_clears_and_guesses Mini.runtime value preset)
    as [_ [_ [_ [_ [_ [_ [_ Hkeep]]]]]]].
  assert (Hguessed :
    fst (guess_encoding Mini.runtime (with_content value fresh))
    = Ret (Some "windows-1251")) by (vm_compute; reflexivity).
  specialize (Hguess eq_refl eq_refl). rewrite Hguessed in Hguess.
  destruct Hguess as [_ Hencoding].
  split; [split|].
  - exact Hencoding.
  - refine (eq_trans Htext _). vm_compute. reflexivity.
  - assert (Hset : encoding preset <> None) by (vm_compute; discriminate).
    exact (proj2 (Hkeep (or_intror Hset))).
Defined.


(** C9. The constructor is given an encoding name with an embedded NUL
    character: the codec lookup raises [ValueError], which the [except]
    clause does not name, and the constructor raises it instead of leaving
    the encoding unset. *)
Theorem init_raises_on_embedded_nul :
  codecs_lookup Mini.runtime Examples.nul_name = Raise ValueError
  /\ caught_by [TypeError; LookupError] ValueError = false
  /\ fst (__init__ Mini.runtime Examples.nul_args) = Raise ValueError.
Proof.
  split; [reflexivity|]. split; [reflexivity|].
  rewrite (proj2 (proj2
             (init_validates_encoding Mini.runtime Examples.nul_args
                Examples.nul_name eq_refl ltac:(discriminate)))
             ValueError eq_refl eq_refl).
  reflexivity.
Qed.

(** * Further properties *)

(** ** Flags and language types *)

(** The flags that a language type reports, against the flags it was made
    from. *)
Lemma language_type_flags :
  forall hi fo : option bool,
    let t := LanguageType.from_flags hi fo in
    (LanguageType.is_hearing_impaired t = Some true <-> hi = Some true)
    /\ (LanguageType.is_forced t = Some true
        <-> fo = Some true /\ hi <> Some true)
    /\ (LanguageType.is_hearing_impaired t = None <-> hi = None /\ fo = None)
    /\ (LanguageType.is_forced t = None <-> hi = None /\ fo = None)
    /\ (forall t' : LanguageType.t,
          LanguageType.from_flags (LanguageType.is_hearing_impaired t')
            (LanguageType.is_forced t') = t').
Proof.
  intros hi fo t. subst t.
  repeat split;
    try (destruct hi as [[|]|], fo as [[|]|]; simpl;
         intros; try reflexivity; try discriminate; try tauto;
         try (intuition congruence); fail).
  intros t'. apply from_flags_projections.
Qed.

(** ** Line endings *)

Lemma fix_line_ending_cons :
  forall (b : byte) (rest : bytes),
    fix_line_ending (b :: rest)
    = if Byte.eqb b x0d
         && match rest with
            | c :: _ => Byte.eqb c x0a
            | [] => false
            end
      then fix_line_ending rest
      else b :: fix_line_ending rest.
Proof.
  intros b rest.
  destruct (Byte.eqb b x0d) eqn:Hb.
  - apply Byte.byte_dec_bl in Hb. subst b.
    destruct rest as [|c rest]; [reflexivity|].
    destruct (Byte.eqb c x0a) eqn:Hc.
    + apply Byte.byte_dec_bl in Hc. subst c. reflexivity.
    + destruct c; try reflexivity. discriminate Hc.
  - destruct b; try reflexivity. discriminate Hb.
Qed.

(** X2. [fix_line_ending] drops carriage returns and nothing else: without
    their carriage returns the result and the content are the same bytes,
    and they hold as many newlines; a content without a carriage return
    directly before a newline comes back as it is, and only such a content
    does.  One pass need not be enough: of two carriage returns before a
    newline, one stays. *)
Theorem fix_line_ending_drops_carriage_returns :
  forall content : bytes,
    without_cr (fix_line_ending content) = without_cr content
    /\ newlines (fix_line_ending content) = newlines content
    /\ (List.length (fix_line_ending content) <= List.length content)%nat
    /\ (crlf_free content = true <-> fix_line_ending content = content)
    /\ fix_line_ending (x0d :: x0d :: x0a :: content)
       = x0d :: x0a :: fix_line_ending content.
Proof.
  intros content.
  assert (Hkeep :
    without_cr (fix_line_ending content) = without_cr content
    /\ newlines (fix_line_ending content) = newlines content
    /\ (List.length (fix_line_ending content) <= List.length content)%nat).
  { unfold without_cr, newlines.
    induction content as [|b rest [IHcr [IHnl IHlen]]];
      [repeat split; reflexivity|].
    rewrite fix_line_ending_cons.
    destruct (Byte.eqb b x0d) eqn:Hb.
    - apply Byte.byte_dec_bl in Hb. subst b.
      destruct rest as [|c rest'].
      + repeat split; reflexivity.
      + destruct (Byte.eqb c x0a) eqn:Hc; cbn [andb].
        * cbn [filter List.length]. cbn. repeat split.
          -- exact IHcr.
          -- exact IHnl.
          -- cbn in IHlen. lia.
        * cbn [filter List.length]. cbn. repeat split.
          -- exact IHcr.
          -- exact IHnl.
          -- cbn in IHlen. lia.
    - cbn [andb filter List.length]. rewrite Hb. cbn [negb].
      destruct (Byte.eqb b x0a); cbn [List.length];
        repeat split; try (f_equal; assumption); try assumption; lia. }
  destruct Hkeep as [Hcr [Hnl Hlen]].
  split; [exact Hcr|]. split; [exact Hnl|]. split; [exact Hlen|]. split.
  - clear Hcr Hnl Hlen.
    induction content as [|b rest IH]; [split; reflexivity|].
    rewrite fix_line_ending_cons. cbn [crlf_free].
    destruct (Byte.eqb b x0d
              && match rest with
                 | c :: _ => Byte.eqb c x0a
                 | [] => false
                 end) eqn:Hpair; cbn [negb andb].
    + split; [discriminate|]. intros Heq. exfalso.
      assert (Hlen :
        (List.length (fix_line_ending rest) <= List.length rest)%nat).
      { clear. induction rest as [|c rest IH]; [simpl; lia|].
        rewrite fix_line_ending_cons.
        destruct (_ && _); simpl; lia. }
      rewrite Heq in Hlen. simpl in Hlen. lia.
    + rewrite IH. split.
      * intros ->. reflexivity.
      * intros Heq. injection Heq as Heq. exact Heq.
  - rewrite (fix_line_ending_cons x0d (x0d :: x0a :: content)).
    rewrite (fix_line_ending_cons x0d (x0a :: content)).
    rewrite (fix_line_ending_cons x0a content). reflexivity.
Qed.

(** ** Paths *)

Lemma rfind_from_found :
  forall (p : string) (i : Z) (c : ascii) (last : Z),
    let r := os_path.rfind_from i c p last in
    r = last
    \/ ((i <= r < i + Z.of_nat (String.length p))%Z
        /\ String.get (Z.to_nat (r - i)) p = Some c).
Proof.
  induction p as [|x p IH]; intros i c last; simpl.
  - left. reflexivity.
  - destruct (IH (i + 1)%Z c (if Ascii.eqb x c then i else last))
      as [Hlast|[Hrange Hget]].
    + rewrite Hlast. destruct (Ascii.eqb_spec x c) as [->|Hne].
      * right. split; [lia|]. rewrite Z.sub_diag. reflexivity.
      * left. reflexivity.
    + right. split; [lia|].
      set (r := os_path.rfind_from (i + 1) c p
                  (if Ascii.eqb x c then i else last)) in *.
      replace (Z.to_nat (r - i)) with (S (Z.to_nat (r - (i + 1)))) by lia.
      exact Hget.
Qed.

Lemma rfind_from_last :
  forall (p : string) (i : Z) (c : ascii) (last : Z) (j : Z),
    (last < i)%Z ->
    (i <= j < i + Z.of_nat (String.length p))%Z ->
    (os_path.rfind_from i c p last < j)%Z ->
    String.get (Z.to_nat (j - i)) p <> Some c.
Proof.
  induction p as [|x p IH]; intros i c last j Hlast Hj Hafter; simpl in *.
  - lia.
  - set (last' := if Ascii.eqb x c then i else last) in *.
    assert (Hlast' : (last' < i + 1)%Z)
      by (subst last'; destruct (Ascii.eqb x c); lia).
    destruct (Z.eq_dec j i) as [->|Hne].
    + rewrite Z.sub_diag. simpl. intros Heq. injection Heq as ->.
      subst last'. rewrite Ascii.eqb_refl in *.
      destruct (rfind_from_found p (i + 1)%Z c i) as [Hr|[Hr _]]; lia.
    + replace (Z.to_nat (j - i)) with (S (Z.to_nat (j - (i + 1)))) by lia.
      apply (IH (i + 1)%Z c last' j); [exact Hlast'|lia|exact Hafter].
Qed.

Lemma substring_split :
  forall (p : string) (n : nat),
    (n <= String.length p)%nat ->
    (String.substring 0 n p
     ++ String.substring n (String.length p - n) p)%string = p.
Proof.
  induction p as [|c p IH]; intros [|n] Hn; simpl in *; try lia.
  - reflexivity.
  - f_equal. clear. induction p as [|x p IH]; [reflexivity|].
    simpl. f_equal. exact IH.
  - f_equal. apply IH. lia.
Qed.

Lemma substring_from_get :
  forall (p : string) (n : nat) (c : ascii),
    String.get n p = Some c ->
    exists rest,
      String.substring n (String.length p - n) p = String c rest.
Proof.
  induction p as [|x p IH]; intros [|n] c Hget; simpl in *;
    try discriminate.
  - injection Hget as ->. eexists. reflexivity.
  - apply IH. exact Hget.
Qed.

Lemma occurs_substring :
  forall (p : string) (n m : nat) (c : ascii),
    occurs c (String.substring n m p) = true ->
    exists j, (n <= j < n + m)%nat /\ String.get j p = Some c.
Proof.
  induction p as [|x p IH]; intros n m c Hocc.
  - destruct n, m; simpl in Hocc; discriminate.
  - destruct n as [|n].
    + destruct m as [|m]; simpl in Hocc; [discriminate|].
      apply orb_true_iff in Hocc. destruct Hocc as [Hx|Hrest].
      * apply Ascii.eqb_eq in Hx. subst x. exists 0%nat.
        split; [lia|reflexivity].
      * destruct (IH 0%nat m c Hrest) as [j [Hj Hget]].
        exists (S j). split; [lia|exact Hget].
    + simpl in Hocc. destruct (IH n m c Hocc) as [j [Hj Hget]].
      exists (S j). split; [lia|exact Hget].
Qed.

Lemma occurs_get :
  forall (p : string) (j : nat) (c : ascii),
    String.get j p = Some c -> occurs c p = true.
Proof.
  induction p as [|x p IH]; intros [|j] c Hget; simpl in *;
    try discriminate.
  - injection Hget as ->. rewrite Ascii.eqb_refl. reflexivity.
  - rewrite (IH j c Hget). apply orb_true_r.
Qed.

(** X3. [os.path.splitext] cuts a path in two without losing a character:
    root and extension put together are the path.  The extension is empty
    or starts with a dot, and holds no path separator, so the root keeps
    the whole directory part; a path without a dot is its own root.
    [get_subtitle_path] puts the suffix and the new extension after that
    root. *)
Theorem splitext_root_and_extension :
  forall p : string,
    let root := fst (os_path.splitext p) in
    let ext := snd (os_path.splitext p) in
    (root ++ ext)%string = p
    /\ (ext = "" \/ starts_with_dot ext = true)
    /\ occurs "/" ext = false
    /\ (occurs "." p = false -> root = p)
    /\ (forall suffix extension,
          get_subtitle_path p suffix extension
          = (root ++ suffix ++ extension)%string).
Proof.
  intros p root ext. subst root ext. unfold os_path.splitext.
  pose proof (rfind_from_found p 0%Z "." (-1)%Z) as Hdot.
  fold (os_path.rfind p ".") in Hdot. cbv zeta in Hdot.
  set (dotIndex := os_path.rfind p ".") in *.
  set (sepIndex := os_path.rfind p "/").
  destruct ((sepIndex <? dotIndex)%Z
            && os_path.skip_leading_dots (String.length p) p
                 (sepIndex + 1) dotIndex) eqn:Hcut; simpl.
  - pose proof Hcut as Hcut'.
    apply andb_true_iff in Hcut. destruct Hcut as [Hsep _].
    apply Z.ltb_lt in Hsep.
    assert (Hsep_low : (-1 <= sepIndex)%Z).
    { subst sepIndex. unfold os_path.rfind.
      destruct (rfind_from_found p 0%Z "/" (-1)%Z) as [H|[H _]]; lia. }
    destruct Hdot as [Hnone|[Hrange Hget]]; [lia|].
    rewrite Z.sub_0_r in Hget.
    split; [apply substring_split; lia|].
    split.
    { right. destruct (substring_from_get p _ _ Hget) as [rest ->].
      reflexivity. }
    split.
    { destruct (occurs "/" (String.substring (Z.to_nat dotIndex)
                              (String.length p - Z.to_nat dotIndex) p))
        eqn:Hocc; [|reflexivity].
      exfalso.
      destruct (occurs_substring _ _ _ _ Hocc) as [j [Hj Hslash]].
      apply (rfind_from_last p 0%Z "/" (-1)%Z (Z.of_nat j)).
      - lia.
      - lia.
      - fold (os_path.rfind p "/"). fold sepIndex. lia.
      - rewrite Z.sub_0_r, Nat2Z.id. exact Hslash. }
    split.
    { intros Hnodot. rewrite (occurs_get p _ _ Hget) in Hnodot.
      discriminate Hnodot. }
    intros suffix extension. unfold get_subtitle_path, os_path.splitext.
    fold sepIndex. fold dotIndex. rewrite Hcut'. reflexivity.
  - split.
    { clear. induction p as [|c p IH]; [reflexivity|].
      simpl. f_equal. exact IH. }
    split; [left; reflexivity|]. split; [reflexivity|].
    split; [reflexivity|].
    intros suffix extension. unfold get_subtitle_path, os_path.splitext.
    fold sepIndex. fold dotIndex. rewrite Hcut. reflexivity.
Qed.

(** ** Candidate encodings *)

Lemma first_of_table {A B : Type} (test : A * B -> bool) :
  forall table : list (A * B),
    firstn 1 (map snd (filter test table)) = []
    \/ exists e,
         In e (map snd table)
         /\ firstn 1 (map snd (filter test table)) = [e].
Proof.
  induction table as [|x table IH]; simpl.
  - left. reflexivity.
  - destruct (test x).
    + right. exists (snd x). split; [left; reflexivity|reflexivity].
    + destruct IH as [Hnone|[e [Hin Heq]]].
      * left. exact Hnone.
      * right. exists e. split; [right; exact Hin|exact Heq].
Qed.

(** Split on every test of a nested conditional. *)
Ltac split_tests :=
  repeat match goal with
         | |- context [if ?b then _ else _] => destruct b
         end.

(** Close [~ In x l] for literal names. *)
Ltac not_among :=
  let H := fresh "H" in
  intros H; simpl in H;
  repeat (destruct H as [H|H]; [discriminate H|]);
  exact H.

Ltac no_repeat := repeat (constructor; [not_among|]); constructor.

(** X5. The language list of [find_potential_encodings] is never empty; it
    does not depend on the country, and depends on the script for Serbian
    only.  With ["utf-8"] in front and the encoding of the byte order mark
    in between, no name is tried twice by [guess_encoding]. *)
Theorem candidate_encodings_by_language :
  forall language : Language,
    find_potential_encodings language <> []
    /\ (forall c : option string,
          find_potential_encodings
            (mkLanguage (alpha3 language) c (script language))
          = find_potential_encodings language)
    /\ (alpha3 language <> "srp" ->
        forall s : option string,
          find_potential_encodings
            (mkLanguage (alpha3 language) (country language) s)
          = find_potential_encodings language)
    /\ (forall content : bytes,
          hd_error (candidate_encodings content language) = Some "utf-8"
          /\ NoDup (candidate_encodings content language)).
Proof.
  intros [a c s]. cbn [alpha3 country script].
  split; [|split; [|split]].
  - unfold find_potential_encodings, script_is, str_in.
    cbn [alpha3 script existsb]. split_tests; discriminate.
  - intros c'. reflexivity.
  - intros Hsrp s'. apply String.eqb_neq in Hsrp.
    unfold find_potential_encodings. cbn [alpha3 script country].
    rewrite Hsrp. reflexivity.
  - intros content. split; [reflexivity|].
    unfold candidate_encodings, find_encoding_with_bom.
    destruct (first_of_table (fun entry => startswith content (fst entry))
                BOMS) as [->|[e [Hin ->]]].
    + unfold find_potential_encodings, script_is, str_in.
      cbn [alpha3 script existsb app].
      split_tests; no_repeat.
    + simpl in Hin.
      unfold find_potential_encodings, script_is, str_in.
      cbn [alpha3 script existsb].
      repeat (destruct Hin as [<-|Hin]; [split_tests; no_repeat|]).
      contradiction.
Qed.

(** ** The entity, further *)

Section FurtherProperties.

Variable rt : Runtime.

(** *** Suffix and extension *)

(** X4. The suffix of [get_subtitle_suffix] is empty or starts with a dot.
    For an undefined language it is the language type part alone, whatever
    the format; so, without the language type suffix, the path of a
    subtitle of undefined language is the path of a single subtitle. *)
Theorem suffix_of_undefined_language :
  forall (lang : Language) (language_format : string)
         (kind : LanguageType.t) (language_type_suffix : bool),
    let suffix :=
      get_subtitle_suffix rt lang language_format kind language_type_suffix in
    (suffix = "" \/ starts_with_dot suffix = true)
    /\ (language_defined lang = false ->
        suffix = language_type_part kind language_type_suffix)
    /\ (language_defined lang = false ->
        forall (self : Subtitle) (video_name : string)
               (extension : option string) (suffix' : bool)
               (format' : string),
          language self = lang ->
          get_path rt self video_name false extension false language_format
          = get_path rt self video_name true extension suffix' format').
Proof.
  intros lang language_format kind language_type_suffix suffix.
  subst suffix. unfold get_subtitle_suffix, language_part, language_type_part.
  split; [|split].
  - destruct language_type_suffix, kind; cbn [String.append];
      try (right; reflexivity);
      destruct (language_defined lang); try (left; reflexivity);
      destruct (str_in language_format only_language_formats),
        (country lang), (script lang);
      right; reflexivity.
  - intros ->.
    destruct language_type_suffix, kind; reflexivity.
  - intros Hundefined self video_name extension suffix' format' Hlang.
    unfold get_path, get_subtitle_suffix, language_part, language_type_part.
    rewrite Hlang, Hundefined. reflexivity.
Qed.

Lemma dict_get_default_or_value :
  forall (d : list (string * string)) (key default : string),
    dict_get d key default = default
    \/ In (dict_get d key default) (map snd d).
Proof.
  induction d as [|[k v] d IH]; intros key default; simpl.
  - left. reflexivity.
  - destruct (String.eqb k key).
    + right. left. reflexivity.
    + destruct (IH key default) as [H|H]; [left|right; right]; exact H.
Qed.

(** X18. When [get_path] is given no extension, the extension it writes is
    one of [SUBTITLE_EXTENSIONS], whatever the format of the subtitle, set
    or not, known or not; it starts with a dot and is never ".smi". *)
Theorem default_extension_is_a_subtitle_extension :
  forall (self : Subtitle) (video_name : string) (single : bool)
         (language_type_suffix : bool) (language_format : string),
    exists extension : string,
      get_path rt self video_name single None language_type_suffix
        language_format
      = (fst (os_path.splitext video_name)
         ++ (if single then ""
             else get_subtitle_suffix rt (language self) language_format
                    (language_type self) language_type_suffix)
         ++ extension)%string
      /\ In extension SUBTITLE_EXTENSIONS
      /\ starts_with_dot extension = true
      /\ extension <> ".smi".
Proof.
  intros self video_name single language_type_suffix language_format.
  exists (match subtitle_format self with
          | Some format => dict_get FORMAT_TO_EXTENSION format ".srt"
          | None => ".srt"
          end).
  split.
  { unfold get_path, get_subtitle_path. reflexivity. }
  assert (Hknown :
    forall e, e = ".srt" \/ In e (map snd FORMAT_TO_EXTENSION) ->
      In e SUBTITLE_EXTENSIONS /\ starts_with_dot e = true /\ e <> ".smi").
  { intros e [->|Hin].
    - split; [left; reflexivity|]. split; [reflexivity|discriminate].
    - simpl in Hin.
      repeat (destruct Hin as [<-|Hin];
              [split; [simpl; tauto|split; [reflexivity|discriminate]]|]).
      contradiction. }
  apply Hknown.
  destruct (subtitle_format self) as [format|]; [|left; reflexivity].
  apply dict_get_default_or_value.
Qed.

(** *** Content, encoding and text *)

(** What the content setter does, by whether it guesses. *)
Lemma set_content_runs :
  forall (value : option bytes) (self : Subtitle),
    set_content rt value self
    = match _guess_encoding self, encoding self with
      | true, None =>
          match fst (guess_encoding rt (cleared_with value self)) with
          | Ret guessed =>
              (Ret tt, with_encoding guessed (cleared_with value self))
          | Raise e => (Raise e, cleared_with value self)
          end
      | _, _ => (Ret tt, cleared_with value self)
      end.
Proof.
  intros value self.
  unfold set_content, clear_content, Method.bind, Method.attr,
    Method.assign, Method.ret.
  cbn -[guess_encoding]. fold (cleared_with value self).
  destruct (_guess_encoding self); [|reflexivity].
  destruct (encoding self); [reflexivity|].
  pose proof (guess_encoding_keeps rt (cleared_with value self)) as Hkeep.
  destruct (guess_encoding rt (cleared_with value self))
    as [[guessed|e] after]; simpl in *; subst after; reflexivity.
Qed.

(** X13. The encoding is guessed at most once with success: once an
    encoding is set, given to the constructor or guessed from an earlier
    content, assigning another content keeps it and returns, whatever the
    new bytes are.  While no encoding is set, as after a guess that found
    none, each assignment guesses again, from the new content. *)
Theorem encoding_is_kept_by_later_contents :
  forall (value : option bytes) (self : Subtitle),
    (forall name : string,
       encoding self = Some name ->
       set_content rt value self = (Ret tt, cleared_with value self)
       /\ encoding (snd (set_content rt value self)) = Some name)
    /\ (encoding self = None ->
        _guess_encoding self = true ->
        forall guessed,
          fst (guess_encoding rt (with_content value self)) = Ret guessed ->
          encoding (snd (set_content rt value self)) = guessed)
    /\ (forall first name,
          encoding (snd (set_content rt first self)) = Some name ->
          encoding (snd (set_content rt value (snd (set_content rt first self))))
          = Some name).
Proof.
  intros value self.
  assert (Hset :
    forall (v : option bytes) (s : Subtitle) (name : string),
      encoding s = Some name ->
      set_content rt v s = (Ret tt, cleared_with v s)
      /\ encoding (snd (set_content rt v s)) = Some name).
  { intros v s name Hname. rewrite set_content_runs, Hname.
    destruct (_guess_encoding s); split; try reflexivity; exact Hname. }
  split; [apply Hset|]. split.
  - intros Hnone Hguess guessed Hguessed.
    rewrite set_content_runs, Hnone, Hguess.
    rewrite (guess_encoding_reads rt (cleared_with value self)
               (with_content value self)) by reflexivity.
    rewrite Hguessed. reflexivity.
  - intros first name Hfirst. apply (Hset _ _ _ Hfirst).
Qed.

(** A text read on attributes that the setter has just cleared. *)
Lemma text_of_cleared :
  forall (value : option bytes) (self : Subtitle),
    fst (text rt (cleared_with value self))
    = decoded_from rt value (encoding self).
Proof.
  intros value self.
  rewrite (text_after_clear rt (cleared_with value self)) by reflexivity.
  reflexivity.
Qed.

(** X10. [clear_content] does not clear the content: it returns, empties
    the caches, and leaves the bytes, the encoding and the format as they
    are, so that the next text read decodes the same bytes again, under the
    encoding as it is then.  It is the way to make a change of encoding
    reach the text. *)
Theorem clear_content_keeps_the_content :
  forall self : Subtitle,
    let cleared := snd (clear_content self) in
    fst (clear_content self) = Ret tt
    /\ cleared = cleared_with (_content self) self
    /\ _content cleared = _content self
    /\ encoding cleared = encoding self
    /\ subtitle_format cleared = subtitle_format self
    /\ _text cleared = []
    /\ _is_valid cleared = None
    /\ fst (text rt cleared)
       = decoded_from rt (_content self) (encoding self)
    /\ (forall name : option string,
          fst (text rt (snd (clear_content (with_encoding name self))))
          = decoded_from rt (_content self) name).
Proof.
  intros self cleared.
  assert (Hcleared : cleared = cleared_with (_content self) self).
  { subst cleared. destruct self. reflexivity. }
  split; [reflexivity|]. split; [exact Hcleared|].
  rewrite Hcleared.
  repeat split.
  - apply text_of_cleared.
  - intros name.
    assert (Hwith :
      snd (clear_content (with_encoding name self))
      = cleared_with (_content self) (with_encoding name self)).
    { destruct self. reflexivity. }
    rewrite Hwith. apply text_of_cleared.
Qed.

(** X7. The text is decoded once.  After a text read has returned,
    assigning the encoding or the format directly does not change what the
    text reads as: the read gives the cached text and touches nothing, also
    when the text was empty for want of an encoding. *)
Theorem text_is_decoded_once :
  forall (self : Subtitle) (t : str) (s1 : Subtitle),
    text rt self = (Ret t, s1) ->
    _is_decoded s1 = true
    /\ _text s1 = t
    /\ (forall (name format : option string),
          let changed := with_subtitle_format format (with_encoding name s1) in
          text rt changed = (Ret t, changed))
    /\ (_is_decoded self = false ->
        Ret t = decoded_from rt (_content self) (encoding self)).
Proof.
  intros self t s1 Htext.
  pose proof (text_read_returns rt _ _ _ Htext) as Hs1.
  split; [rewrite Hs1; reflexivity|].
  split; [rewrite Hs1; reflexivity|]. split.
  - intros name format changed. subst changed. rewrite Hs1. reflexivity.
  - intros Hfresh.
    rewrite <- (text_after_clear rt self Hfresh), Htext. reflexivity.
Qed.

(** X16. A decoding that raises is not tried again.  When a text read
    raises, as decoding does under an encoding name that is no codec, the
    decoded flag is already set and the cached text is as it was: the next
    read returns that text, the empty text after a content assignment,
    without raising, and [is_valid] then answers false. *)
Theorem failed_decoding_is_not_retried :
  forall (self : Subtitle) (e : exn) (s1 : Subtitle),
    text rt self = (Raise e, s1) ->
    _is_decoded self = false
    /\ decoded_from rt (_content self) (encoding self) = Raise e
    /\ s1 = with_is_decoded true self
    /\ text rt s1 = (Ret (_text self), s1)
    /\ (_text self = [] ->
        _is_valid self = None ->
        forall auto_fix_srt : bool,
          is_valid rt auto_fix_srt s1
          = (Ret false, with_is_valid (Some false) s1)).
Proof.
  intros self e s1.
  unfold text at 1, _decode_content, decoded_from, Method.bind, Method.attr,
    Method.assign, Method.call, Method.ret.
  destruct self as [pn c tx d v g l i lt pl enc f fp em]. cbn.
  destruct d; cbn; [discriminate|].
  destruct c as [[|b c]|]; cbn; try discriminate.
  destruct enc as [[|a name]|]; cbn; try discriminate.
  destruct (bytes_decode rt (b :: c) (String a name) replace)
    as [decoded|x] eqn:Hdecode; cbn; [discriminate|].
  intros H. injection H as <- <-.
  split; [reflexivity|]. split; [reflexivity|]. split; [reflexivity|].
  split; [reflexivity|].
  intros -> -> auto_fix_srt. reflexivity.
Qed.

(** X17. A subtitle without bytes has no text and is not valid.  After the
    content is assigned [None] or the empty bytes, whatever the guess of
    the encoding gives, the text reads as empty, [is_valid] answers false
    and [reencode] answers false and leaves the content as assigned. *)
Theorem empty_content_reads_empty :
  forall (value : option bytes) (self : Subtitle),
    value = None \/ value = Some [] ->
    let assigned := snd (set_content rt value self) in
    fst (text rt assigned) = Ret []
    /\ (forall auto_fix_srt : bool,
          fst (is_valid rt auto_fix_srt assigned) = Ret false)
    /\ (forall target : string,
          fst (reencode rt target assigned) = Ret false
          /\ _content (snd (reencode rt target assigned)) = value).
Proof.
  intros value self Hempty assigned.
  assert (Hshape :
    exists name, assigned = with_encoding name (cleared_with value self)).
  { subst assigned. rewrite set_content_runs.
    destruct (_guess_encoding self), (encoding self) as [name|] eqn:Hname;
      try (exists (encoding self); rewrite Hname; destruct self;
           cbn in *; subst; reflexivity).
    destruct (fst (guess_encoding rt (cleared_with value self)))
      as [guessed|e].
    - exists guessed. reflexivity.
    - exists None. destruct self; cbn in *; subst; reflexivity. }
  destruct Hshape as [name ->].
  destruct self as [pn c tx d v g l i lt pl enc f fp em].
  destruct Hempty as [->| ->];
    (split; [reflexivity|split; [intros auto_fix_srt; reflexivity|
                                 intros target; split; reflexivity]]).
Qed.

(** *** Re-encoding *)

(** X8. Re-encoding encodes the cached text, never the bytes: after a
    [reencode] that succeeded, the text reads as before, and a second
    [reencode] leaves the subtitle as the second alone would have left
    it. *)
Theorem reencode_twice :
  forall (first second : string) (self : Subtitle) (t : str) (s1 : Subtitle)
         (content1 content2 : bytes),
    text rt self = (Ret t, s1) ->
    t <> [] ->
    str_encode rt t first = Ret content1 ->
    str_encode rt t second = Ret content2 ->
    let once := snd (reencode rt first self) in
    text rt once = (Ret t, once)
    /\ reencode rt second once = reencode rt second self
    /\ _content (snd (reencode rt second once)) = Some content2
    /\ encoding (snd (reencode rt second once)) = Some second.
Proof.
  intros first second self t s1 content1 content2 Htext Hne Hfirst Hsecond
    once.
  pose proof (text_read_returns rt _ _ _ Htext) as Hs1.
  assert (Hrun :
    forall (target : string) (new_content : bytes) (s : Subtitle) (s' : Subtitle),
      text rt s = (Ret t, s') ->
      str_encode rt t target = Ret new_content ->
      reencode rt target s
      = (Ret true,
         with_content (Some new_content) (with_encoding (Some target) s'))).
  { intros target new_content s s' Hs Henc.
    unfold reencode, Method.bind, Method.try_except, Method.call,
      Method.ret, Method.assign.
    rewrite Hs. destruct t as [|c t']; [contradiction Hne; reflexivity|].
    rewrite Henc. reflexivity. }
  assert (Honce :
    once = with_content (Some content1) (with_encoding (Some first) s1)).
  { subst once. rewrite (Hrun first content1 self s1 Htext Hfirst).
    reflexivity. }
  assert (Hcached : text rt once = (Ret t, once)).
  { rewrite Honce, Hs1. reflexivity. }
  split; [exact Hcached|].
  rewrite (Hrun second content2 once once Hcached Hsecond).
  rewrite (Hrun second content2 self s1 Htext Hsecond).
  split; [|split; reflexivity].
  rewrite Honce. destruct s1. reflexivity.
Qed.

(** X9. Round trip.  When the codec decodes what it encoded, the bytes and
    the encoding that a successful [reencode] stores read back as the text:
    assigned as content, to the subtitle itself or to any subtitle with
    that encoding set, they decode to the text that was encoded, with no
    guess of the encoding. *)
Theorem reencode_round_trip :
  forall (target : string) (self : Subtitle) (t : str) (s1 : Subtitle)
         (new_content : bytes),
    text rt self = (Ret t, s1) ->
    t <> [] ->
    str_encode rt t target = Ret new_content ->
    new_content <> [] ->
    target <> "" ->
    bytes_decode rt new_content target replace = Ret t ->
    let stored := snd (reencode rt target self) in
    _content stored = Some new_content
    /\ encoding stored = Some target
    /\ (forall other : Subtitle,
          encoding other = encoding stored ->
          let assigned := snd (set_content rt (_content stored) other) in
          encoding assigned = Some target
          /\ fst (text rt assigned) = Ret t).
Proof.
  intros target self t s1 new_content Htext Hne Henc Hbytes Hname Hdec
    stored.
  assert (Hstored :
    stored = with_content (Some new_content)
               (with_encoding (Some target) s1)).
  { subst stored.
    unfold reencode, Method.bind, Method.try_except, Method.call,
      Method.ret, Method.assign.
    rewrite Htext. destruct t as [|c t']; [contradiction Hne; reflexivity|].
    rewrite Henc. reflexivity. }
  rewrite Hstored. cbn [_content encoding with_content with_encoding].
  split; [reflexivity|]. split; [reflexivity|].
  intros other Hother. cbv zeta.
  rewrite set_content_runs, Hother.
  assert (Hsame :
    (if _guess_encoding other
     then (Ret tt, cleared_with (Some new_content) other)
     else (Ret tt, cleared_with (Some new_content) other))
    = (Ret tt, cleared_with (Some new_content) other))
    by (destruct (_guess_encoding other); reflexivity).
  rewrite Hsame. cbn [snd].
  split; [exact Hother|].
  rewrite text_of_cleared, Hother. unfold decoded_from.
  destruct new_content as [|b rest]; [contradiction Hbytes; reflexivity|].
  destruct target as [|a name]; [contradiction Hname; reflexivity|].
  exact Hdec.
Qed.

(** *** Format detection and validity *)

(** X6. [get_subtitle_format] retries once, at 24 frames a second, and
    lets no exception out: when the library cannot tell the frame rate, the
    answer is that of the library at the default rate, whatever rate was
    given; any other failure of the library gives [None].  This holds when
    the library, given the default rate, does not ask for a rate again, and
    two nested calls are allowed. *)
Theorem get_subtitle_format_retries_at_default_rate :
  forall (depth : nat) (t : str) (format : option string) (fps : option Q),
    (2 <= depth)%nat ->
    (forall e,
       SSAFile_from_string rt t format (Some default_fps) = Raise e ->
       isinstance e UnknownFPSError = false) ->
    get_subtitle_format rt depth t format fps
    = match SSAFile_from_string rt t format fps with
      | Ret found => Ret (Some found)
      | Raise e =>
          if isinstance e UnknownFPSError then
            match SSAFile_from_string rt t format (Some default_fps) with
            | Ret found => Ret (Some found)
            | Raise _ => Ret None
            end
          else Ret None
      end.
Proof.
  intros [|[|depth]] t format fps Hdepth Hknown; [lia|lia|]. simpl.
  destruct (SSAFile_from_string rt t format fps) as [found|e];
    [reflexivity|].
  destruct (isinstance e UnknownFPSError).
  - destruct (SSAFile_from_string rt t format (Some default_fps))
      as [found|e'] eqn:Hretry; [reflexivity|].
    rewrite (Hknown e' eq_refl), every_exn_is_Exception. reflexivity.
  - rewrite every_exn_is_Exception. reflexivity.
Qed.

Ltac step_validity :=
  cbn -[get_subtitle_format String.eqb isinstance obind].

Ltac open_validity Hvalid Htext :=
  unfold is_valid, _check_is_valid, check_known_format, parse_srt,
    Method.bind, Method.attr, Method.assign, Method.call, Method.ret,
    Method.try_except, caught_by;
  rewrite Hvalid, Htext;
  rewrite (text_read_returns rt _ _ _ Htext);
  step_validity.

Lemma first_check_with_format :
  forall (auto_fix_srt : bool) (self : Subtitle) (t : str) (s1 : Subtitle)
         (format : string),
    _is_valid self = None ->
    text rt self = (Ret t, s1) ->
    t <> [] ->
    subtitle_format self = Some format ->
    is_valid rt auto_fix_srt self = checked_as rt format auto_fix_srt t s1.
Proof.
  intros auto_fix_srt self t s1 format Hvalid Htext Hne Hformat.
  destruct t as [|c t]; [contradiction Hne; reflexivity|].
  unfold checked_as, srt_round_trip.
  open_validity Hvalid Htext.
  rewrite Hformat. step_validity. rewrite Hformat.
  destruct (String.eqb format "srt"); step_validity; [|reflexivity].
  destruct (obind (srt_parse rt (c :: t)) (srt_compose rt)) as [parsed|e].
  - destruct auto_fix_srt; reflexivity.
  - rewrite every_exn_is_Exception. reflexivity.
Qed.

Lemma first_check_detecting :
  forall (auto_fix_srt : bool) (self : Subtitle) (t : str) (s1 : Subtitle),
    _is_valid self = None ->
    text rt self = (Ret t, s1) ->
    t <> [] ->
    subtitle_format self = None ->
    is_valid rt auto_fix_srt self
    = match get_subtitle_format rt (recursion_limit rt) t None (fps self) with
      | Ret (Some format) =>
          if truthy_str (Some format) then
            checked_as rt format auto_fix_srt t
              (with_subtitle_format (Some format) s1)
          else (Ret false, with_is_valid (Some false) s1)
      | Ret None => (Ret false, with_is_valid (Some false) s1)
      | Raise e => (Raise e, s1)
      end.
Proof.
  intros auto_fix_srt self t s1 Hvalid Htext Hne Hformat.
  destruct t as [|c t]; [contradiction Hne; reflexivity|].
  unfold checked_as, srt_round_trip.
  open_validity Hvalid Htext.
  rewrite Hformat. step_validity.
  destruct (get_subtitle_format rt (recursion_limit rt) (c :: t) None
              (fps self)) as [[format|]|e]; step_validity;
    try reflexivity.
  destruct format as [|a format]; step_validity; [reflexivity|].
  destruct (String.eqb (String a format) "srt"); step_validity;
    [|reflexivity].
  destruct (obind (srt_parse rt (c :: t)) (srt_compose rt)) as [parsed|e].
  - destruct auto_fix_srt; reflexivity.
  - rewrite every_exn_is_Exception. reflexivity.
Qed.

(** X15. [is_valid] does not raise on account of the subtitle text: when
    the text read returns and the format is set or the detector returns,
    [is_valid] returns a boolean, whatever the srt library raises, and that
    boolean is then the cached answer. *)
Theorem is_valid_returns :
  forall (auto_fix_srt : bool) (self : Subtitle) (t : str) (s1 : Subtitle),
    text rt self = (Ret t, s1) ->
    (subtitle_format self = None ->
     exists guessed,
       get_subtitle_format rt (recursion_limit rt) t None (fps self)
       = Ret guessed) ->
    exists (valid : bool) (s2 : Subtitle),
      is_valid rt auto_fix_srt self = (Ret valid, s2)
      /\ _is_valid s2 = Some valid.
Proof.
  intros auto_fix_srt self t s1 Htext Hdetector.
  assert (Hchecked :
    forall format s, exists valid s2,
      checked_as rt format auto_fix_srt t s = (Ret valid, s2)
      /\ _is_valid s2 = Some valid).
  { intros format s. unfold checked_as.
    destruct (String.eqb format "srt").
    - destruct (srt_round_trip rt t) as [parsed|e].
      + exists true. eexists. split; [reflexivity|].
        destruct auto_fix_srt; reflexivity.
      + exists false. eexists. split; reflexivity.
    - exists true. eexists. split; reflexivity. }
  destruct (_is_valid self) as [cached|] eqn:Hvalid.
  { exists cached, self. split; [|exact Hvalid].
    apply is_valid_cached. exact Hvalid. }
  destruct (list_eq_dec N.eq_dec t []) as [->|Hne].
  { exists false, (with_is_valid (Some false) s1).
    split; [|reflexivity]. open_validity Hvalid Htext. reflexivity. }
  destruct (subtitle_format self) as [format|] eqn:Hformat.
  - rewrite (first_check_with_format auto_fix_srt self t s1 format
               Hvalid Htext Hne Hformat).
    apply Hchecked.
  - rewrite (first_check_detecting auto_fix_srt self t s1
               Hvalid Htext Hne Hformat).
    destruct (Hdetector eq_refl) as [guessed ->].
    destruct guessed as [format|].
    + destruct (truthy_str (Some format)); [apply Hchecked|].
      exists false. eexists. split; reflexivity.
    + exists false. eexists. split; reflexivity.
Qed.

(** X11. The format sticks.  Assigning the content leaves the format as it
    is, given or detected from an earlier content, and the detector is not
    asked again: under a format other than srt any new content with a text
    is valid, and under srt the new content is checked as srt, whatever it
    holds. *)
Theorem format_is_kept_by_later_contents :
  forall (value : option bytes) (self : Subtitle),
    let assigned := snd (set_content rt value self) in
    subtitle_format assigned = subtitle_format self
    /\ _is_valid assigned = None
    /\ (forall (format : string) (auto_fix_srt : bool) (t : str)
               (s1 : Subtitle),
          subtitle_format self = Some format ->
          text rt assigned = (Ret t, s1) ->
          t <> [] ->
          fst (is_valid rt auto_fix_srt assigned)
          = Ret (if String.eqb format "srt"
                 then match srt_round_trip rt t with
                      | Ret _ => true
                      | Raise _ => false
                      end
                 else true)).
Proof.
  intros value self assigned.
  assert (Hframe :
    subtitle_format assigned = subtitle_format self
    /\ _is_valid assigned = None).
  { subst assigned. rewrite set_content_runs.
    destruct (_guess_encoding self), (encoding self);
      try (split; reflexivity).
    destruct (fst (guess_encoding rt (cleared_with value self)));
      split; reflexivity. }
  destruct Hframe as [Hformat Hvalid].
  split; [exact Hformat|]. split; [exact Hvalid|].
  intros format auto_fix_srt t s1 Hset Htext Hne.
  rewrite Hset in Hformat.
  rewrite (first_check_with_format auto_fix_srt assigned t s1 format
             Hvalid Htext Hne Hformat).
  unfold checked_as.
  destruct (String.eqb format "srt"); [|reflexivity].
  destruct (srt_round_trip rt t); reflexivity.
Qed.


(** *** Construction *)

(** What [__init__] leaves, apart from the encoding. *)
Lemma init_leaves :
  forall (a : init_args) (o : outcome unit) (self : Subtitle),
    __init__ rt a = (o, self) ->
    exists name : option string,
      self = with_encoding name (init_attributes a).
Proof.
  intros a o self.
  unfold __init__, validate_encoding, Method.try_except, Method.bind,
    Method.call, Method.assign, Method.ret.
  destruct (truthy_str (arg_encoding a)).
  - destruct (arg_encoding a) as [name|].
    + destruct (codecs_lookup rt name) as [canonical|e]; cbn -[caught_by].
      * intros H. injection H as _ <-. exists (Some canonical). reflexivity.
      * destruct (caught_by [TypeError; LookupError] e);
          intros H; injection H as _ <-; exists None; reflexivity.
    + intros H. injection H as _ <-. exists None. reflexivity.
  - intros H. injection H as _ <-. exists None. reflexivity.
Qed.

(** X1. The flags that a subtitle reports are those of its language type,
    not always those it was made with: [hearing_impaired] is true exactly
    when it was given true; [forced] is true exactly when it was given true
    and [hearing_impaired] was not; both are unknown exactly when both were
    given unknown, so an unknown flag beside an explicit false reads as
    false.  Making a subtitle again from the flags it reports gives the
    same language type. *)
Theorem flags_of_a_constructed_subtitle :
  forall (a : init_args) (o : outcome unit) (self : Subtitle),
    __init__ rt a = (o, self) ->
    (hearing_impaired self = Some true <-> arg_hearing_impaired a = Some true)
    /\ (forced self = Some true
        <-> arg_forced a = Some true /\ arg_hearing_impaired a <> Some true)
    /\ (hearing_impaired self = None
        <-> arg_hearing_impaired a = None /\ arg_forced a = None)
    /\ (forced self = None
        <-> arg_hearing_impaired a = None /\ arg_forced a = None)
    /\ LanguageType.from_flags (hearing_impaired self) (forced self)
       = language_type self.
Proof.
  intros a o self Hinit.
  destruct (init_leaves _ _ _ Hinit) as [name ->].
  unfold hearing_impaired, forced.
  cbn [language_type with_encoding init_attributes].
  destruct (language_type_flags (arg_hearing_impaired a) (arg_forced a))
    as [Hhi [Hforced [Hunknown [Hunknown' Hback]]]].
  split; [exact Hhi|]. split; [exact Hforced|].
  split; [exact Hunknown|]. split; [exact Hunknown'|]. apply Hback.
Qed.

(** *** Embedded subtitles *)

(** X12. An embedded subtitle is known by its language alone.  Its id is
    "Embedded <language>", its provider name is empty, it is marked
    embedded and guesses its encoding; so two embedded subtitles of one
    language have the same id and the same hash, whatever their flags,
    while [info] tells a hearing impaired or a forced one apart. *)
Theorem embedded_subtitle_identity :
  forall (a : embedded_args) (o : outcome unit) (self : Subtitle),
    EmbeddedSubtitle__init__ rt a = (o, self) ->
    embedded self = true
    /\ provider_name self = ""
    /\ _guess_encoding self = true
    /\ _content self = None
    /\ id self
       = ("Embedded <" ++ language_str rt (emb_language a) ++ ">")%string
    /\ __hash__ rt self
       = hash_str rt
           ("-Embedded <" ++ language_str rt (emb_language a) ++ ">")%string
    /\ EmbeddedSubtitle_info self
       = (id self
          ++ match LanguageType.from_flags (emb_hearing_impaired a)
                     (emb_forced a) with
             | LanguageType.HEARING_IMPAIRED => " [hi]"
             | LanguageType.FORCED => " [forced]"
             | LanguageType.NORMAL | LanguageType.UNKNOWN => ""
             end)%string
    /\ (forall (a' : embedded_args) (o' : outcome unit) (self' : Subtitle),
          EmbeddedSubtitle__init__ rt a' = (o', self') ->
          emb_language a' = emb_language a ->
          id self' = id self /\ __hash__ rt self' = __hash__ rt self).
Proof.
  intros a o self Hinit.
  assert (Hmade :
    forall b p s,
      EmbeddedSubtitle__init__ rt b = (p, s) ->
      exists name,
        s = with_encoding name
              (init_attributes
                 (mkArgs "" (emb_language b)
                    ("Embedded <" ++ language_str rt (emb_language b) ++ ">")
                    (emb_hearing_impaired b) (emb_forced b) None
                    (emb_encoding b) (emb_subtitle_format b) None true
                    true))).
  { intros b p s H. unfold EmbeddedSubtitle__init__ in H.
    exact (init_leaves _ _ _ H). }
  destruct (Hmade _ _ _ Hinit) as [name ->].
  do 6 (split; [reflexivity|]). split.
  - unfold EmbeddedSubtitle_info, id. cbn.
    destruct (LanguageType.from_flags (emb_hearing_impaired a)
                (emb_forced a)); reflexivity.
  - intros a' o' self' Hinit' Hlanguage.
    destruct (Hmade _ _ _ Hinit') as [name' ->].
    unfold __hash__, id. cbn. rewrite Hlanguage. split; reflexivity.
Qed.

End FurtherProperties.

(** ** The further properties on the sample subtitles *)

(** Hidden files and double extensions. *)
Lemma splitext_root_and_extension_witness :
  os_path.splitext "dir.d/archive.tar.gz" = ("dir.d/archive.tar", ".gz")
  /\ fst (os_path.splitext "films/movie") = "films/movie"
  /\ get_subtitle_path "dir.d/movie" ".en" ".srt" = "dir.d/movie.en.srt".
Proof.
  split; [reflexivity|]. split.
  - apply (proj1 (proj2 (proj2 (proj2
             (splitext_root_and_extension "films/movie"))))).
    reflexivity.
  - reflexivity.
Defined.

(** Serbian in Latin script has its own list; the script changes nothing
    for Russian. *)
Lemma candidate_encodings_by_language_witness :
  find_potential_encodings (mkLanguage "rus" None (Some "Latn"))
  = find_potential_encodings Examples.russian
  /\ find_potential_encodings (mkLanguage "srp" None (Some "Latn"))
     <> find_potential_encodings (mkLanguage "srp" None None).
Proof.
  split.
  - apply (proj1 (proj2 (proj2
             (candidate_encodings_by_language Examples.russian)))).
    discriminate.
  - discriminate.
Defined.

(** An undefined language leaves "movie.srt", or "movie.hi.srt" with the
    language type suffix. *)
Lemma suffix_of_undefined_language_witness :
  let self := with_subtitle_format (Some "srt")
                (snd (__init__ Mini.runtime
                        (Examples.plain_args Samples.undefined))) in
  language_defined Samples.undefined = false
  /\ get_subtitle_suffix Mini.runtime Samples.undefined "alpha2"
       LanguageType.HEARING_IMPAIRED true = ".hi"
  /\ get_path Mini.runtime self "movie.mkv" false None false "alpha2"
     = "movie.srt".
Proof.
  intros self. split; [reflexivity|].
  pose proof (suffix_of_undefined_language Mini.runtime Samples.undefined
                "alpha2" LanguageType.HEARING_IMPAIRED true)
    as [_ [Htype Hsingle]].
  split.
  - exact (Htype eq_refl).
  - rewrite (Hsingle eq_refl self "movie.mkv" None false "alpha2" eq_refl).
    reflexivity.
Defined.

(** A frame-based text without a frame rate is detected at the default
    rate. *)
Lemma get_subtitle_format_retries_at_default_rate_witness :
  SSAFile_from_string Mini.runtime (Mini.lit "{1}{2}Hello") None None
  = Raise UnknownFPSError
  /\ get_subtitle_format Mini.runtime 1000 (Mini.lit "{1}{2}Hello") None None
     = Ret (Some "microdvd").
Proof.
  split; [reflexivity|].
  rewrite (get_subtitle_format_retries_at_default_rate Mini.runtime 1000
             (Mini.lit "{1}{2}Hello") None None).
  - reflexivity.
  - lia.
  - intros e He. vm_compute in He. discriminate He.
Defined.

(** Without an encoding "Hello" reads as empty, and still does once the
    encoding is set, until the caches are cleared. *)
Lemma text_is_decoded_once_witness :
  let self := Samples.hello_without_encoding in
  let read := snd (text Mini.runtime self) in
  text Mini.runtime self = (Ret [], read)
  /\ text Mini.runtime (with_encoding (Some "utf-8") read)
     = (Ret [], with_encoding (Some "utf-8") read)
  /\ fst (text Mini.runtime
            (snd (clear_content (with_encoding (Some "utf-8") read))))
     = Ret (Mini.lit "Hello").
Proof.
  intros self read.
  assert (Hread : text Mini.runtime self = (Ret [], read))
    by (vm_compute; reflexivity).
  split; [exact Hread|]. split.
  - pose proof (text_is_decoded_once Mini.runtime self [] read Hread)
      as [_ [_ [Hstale _]]].
    exact (Hstale (Some "utf-8") (subtitle_format read)).
  - vm_compute. reflexivity.
Defined.

(** "Hello" re-encoded to Latin-1 and then to UTF-8 is as re-encoded to
    UTF-8 at once. *)
Lemma reencode_twice_witness :
  let hello := Examples.loaded Examples.english Examples.hello in
  let once := snd (reencode Mini.runtime "latin-1" hello) in
  encoding once = Some "latin-1"
  /\ reencode Mini.runtime "utf-8" once = reencode Mini.runtime "utf-8" hello
  /\ encoding (snd (reencode Mini.runtime "utf-8" once)) = Some "utf-8".
Proof.
  intros hello once.
  assert (Hhello :
    text Mini.runtime hello
    = (Ret (Mini.lit "Hello"), snd (text Mini.runtime hello)))
    by (vm_compute; reflexivity).
  assert (Hne : Mini.lit "Hello" <> []) by discriminate.
  assert (H1 :
    str_encode Mini.runtime (Mini.lit "Hello") "latin-1"
    = Ret Examples.hello) by (vm_compute; reflexivity).
  assert (H2 :
    str_encode Mini.runtime (Mini.lit "Hello") "utf-8" = Ret Examples.hello)
    by (vm_compute; reflexivity).
  pose proof (reencode_twice Mini.runtime "latin-1" "utf-8" hello _ _ _ _
                Hhello Hne H1 H2) as [_ [Hsame [_ Hencoding]]].
  split; [vm_compute; reflexivity|]. split; [exact Hsame|exact Hencoding].
Defined.

(** Cyrillic text re-encoded to ISO 8859-5 reads back from the new
    bytes. *)
Lemma reencode_round_trip_witness :
  let privet := Examples.loaded Examples.russian Examples.privet_cp1251 in
  let stored := snd (reencode Mini.runtime "iso-8859-5" privet) in
  let other :=
    with_encoding (Some "iso-8859-5") (Examples.fresh Examples.english) in
  encoding privet = Some "windows-1251"
  /\ _content stored = Some [xbf; xe0; xd8; xd2; xd5; xe2]
  /\ fst (text Mini.runtime
            (snd (set_content Mini.runtime (_content stored) other)))
     = Ret [1055; 1088; 1080; 1074; 1077; 1090]%N.
Proof.
  intros privet stored other.
  assert (Hprivet :
    text Mini.runtime privet
    = (Ret [1055; 1088; 1080; 1074; 1077; 1090]%N,
       snd (text Mini.runtime privet)))
    by (vm_compute; reflexivity).
  assert (Hne : [1055; 1088; 1080; 1074; 1077; 1090]%N <> [])
    by discriminate.
  assert (Henc :
    str_encode Mini.runtime [1055; 1088; 1080; 1074; 1077; 1090]%N
      "iso-8859-5"
    = Ret [xbf; xe0; xd8; xd2; xd5; xe2]) by (vm_compute; reflexivity).
  assert (Hbytes : [xbf; xe0; xd8; xd2; xd5; xe2] <> []) by discriminate.
  assert (Hname : "iso-8859-5" <> "") by discriminate.
  assert (Hdec :
    bytes_decode Mini.runtime [xbf; xe0; xd8; xd2; xd5; xe2] "iso-8859-5"
      replace
    = Ret [1055; 1088; 1080; 1074; 1077; 1090]%N)
    by (vm_compute; reflexivity).
  pose proof (reencode_round_trip Mini.runtime "iso-8859-5" privet _ _ _
                Hprivet Hne Henc Hbytes Hname Hdec)
    as [Hcontent [Hencoding Hback]].
  split; [vm_compute; reflexivity|]. split; [exact Hcontent|].
  fold stored in Hencoding, Hback.
  assert (Hother : encoding other = encoding stored)
    by (rewrite Hencoding; reflexivity).
  exact (proj2 (Hback other Hother)).
Defined.

(** The encoding guessed from Cyrillic bytes stays when UTF-8 bytes are
    assigned next, which then read as two other letters. *)
Lemma encoding_is_kept_by_later_contents_witness :
  let first :=
    snd (set_content Mini.runtime (Some Examples.privet_cp1251)
           (Examples.fresh Examples.russian)) in
  encoding first = Some "windows-1251"
  /\ encoding (snd (set_content Mini.runtime (Some [xd0; x9f]) first))
     = Some "windows-1251"
  /\ fst (text Mini.runtime
            (snd (set_content Mini.runtime (Some [xd0; x9f]) first)))
     = Ret [1056; 1119]%N.
Proof.
  intros first.
  assert (Hfirst : encoding first = Some "windows-1251")
    by (vm_compute; reflexivity).
  split; [exact Hfirst|]. split.
  - exact (proj2 (proj2
             (encoding_is_kept_by_later_contents Mini.runtime
                (Some [xd0; x9f]) (Examples.fresh Examples.russian)))
             (Some Examples.privet_cp1251) "windows-1251" Hfirst).
  - vm_compute. reflexivity.
Defined.

(** A cue is detected as srt; a frame-based text assigned next is checked
    as srt and refused, though alone it is valid. *)
Lemma format_is_kept_by_later_contents_witness :
  let checked :=
    snd (is_valid Mini.runtime false
           (Examples.loaded Examples.english Examples.one_cue)) in
  let assigned :=
    snd (set_content Mini.runtime (Some Samples.frames) checked) in
  subtitle_format checked = Some "srt"
  /\ subtitle_format assigned = Some "srt"
  /\ fst (is_valid Mini.runtime false assigned) = Ret false
  /\ fst (is_valid Mini.runtime false
            (Examples.loaded Examples.english Samples.frames)) = Ret true.
Proof.
  intros checked assigned.
  assert (Hformat : subtitle_format checked = Some "srt")
    by (vm_compute; reflexivity).
  pose proof (format_is_kept_by_later_contents Mini.runtime
                (Some Samples.frames) checked) as [Hkept [_ Hcheck]].
  fold assigned in Hkept, Hcheck.
  split; [exact Hformat|].
  split; [rewrite Hkept; exact Hformat|]. split.
  - assert (Htext :
      text Mini.runtime assigned
      = (Ret (Mini.lit "{1}{2}Hello"), snd (text Mini.runtime assigned)))
      by (vm_compute; reflexivity).
    assert (Hne : Mini.lit "{1}{2}Hello" <> []) by discriminate.
    rewrite (Hcheck "srt" false _ _ Hformat Htext Hne).
    vm_compute. reflexivity.
  - vm_compute. reflexivity.
Defined.


(** A text with an arrow and no timing makes the srt library raise, and
    [is_valid] answers false. *)
Lemma is_valid_returns_witness :
  let broken :=
    Examples.loaded Examples.english (Examples.ascii_bytes "1 --> 2") in
  srt_round_trip Mini.runtime (Mini.lit "1 --> 2") = Raise Exception
  /\ exists s2,
       is_valid Mini.runtime true broken = (Ret false, s2)
       /\ _is_valid s2 = Some false.
Proof.
  intros broken. split; [vm_compute; reflexivity|].
  assert (Htext :
    text Mini.runtime broken
    = (Ret (Mini.lit "1 --> 2"), snd (text Mini.runtime broken)))
    by (vm_compute; reflexivity).
  destruct (is_valid_returns Mini.runtime true broken _ _ Htext)
    as [valid [s2 [Hrun Hcached]]].
  - intros _. eexists. vm_compute. reflexivity.
  - assert (Hfalse : fst (is_valid Mini.runtime true broken) = Ret false)
      by (vm_compute; reflexivity).
    rewrite Hrun in Hfalse. simpl in Hfalse. injection Hfalse as ->.
    exists s2. split; [exact Hrun|exact Hcached].
Defined.

(** Under a name that is no codec the first read raises [LookupError], the
    second returns the empty text, and the subtitle is then not valid. *)
Lemma failed_decoding_is_not_retried_witness :
  let self := Samples.hello_under_no_codec in
  let read := snd (text Mini.runtime self) in
  text Mini.runtime self = (Raise LookupError, read)
  /\ text Mini.runtime read = (Ret [], read)
  /\ fst (is_valid Mini.runtime false read) = Ret false.
Proof.
  intros self read.
  assert (Hraise : text Mini.runtime self = (Raise LookupError, read))
    by (vm_compute; reflexivity).
  pose proof (failed_decoding_is_not_retried Mini.runtime self _ _ Hraise)
    as [_ [_ [_ [Hagain Hinvalid]]]].
  split; [exact Hraise|]. split; [exact Hagain|].
  rewrite (Hinvalid eq_refl eq_refl false). reflexivity.
Defined.

(** A subtitle whose content is [None], or the empty bytes. *)
Lemma empty_content_reads_empty_witness :
  let none := snd (set_content Mini.runtime None
                     (Examples.fresh Examples.english)) in
  let empty := snd (set_content Mini.runtime (Some [])
                      (Examples.fresh Examples.english)) in
  encoding none = None
  /\ encoding empty = Some "utf-8"
  /\ fst (is_valid Mini.runtime true none) = Ret false
  /\ fst (text Mini.runtime empty) = Ret []
  /\ fst (reencode Mini.runtime "utf-8" empty) = Ret false.
Proof.
  intros none empty.
  pose proof (empty_content_reads_empty Mini.runtime None
                (Examples.fresh Examples.english) (or_introl eq_refl))
    as [_ [Hinvalid _]].
  pose proof (empty_content_reads_empty Mini.runtime (Some [])
                (Examples.fresh Examples.english) (or_intror eq_refl))
    as [Htext [_ Hreencode]].
  split; [vm_compute; reflexivity|]. split; [vm_compute; reflexivity|].
  split; [exact (Hinvalid true)|]. split; [exact Htext|].
  exact (proj1 (Hreencode "utf-8")).
Defined.

(** The plain and the hearing impaired embedded English tracks share id
    and hash, and differ in [info]. *)
Lemma embedded_subtitle_identity_witness :
  let plain := snd (EmbeddedSubtitle__init__ Mini.runtime
                      Samples.embedded_plain) in
  let hi := snd (EmbeddedSubtitle__init__ Mini.runtime Samples.embedded_hi) in
  id plain = "Embedded <eng>"
  /\ id hi = id plain
  /\ __hash__ Mini.runtime hi = __hash__ Mini.runtime plain
  /\ EmbeddedSubtitle_info plain = "Embedded <eng>"
  /\ EmbeddedSubtitle_info hi = "Embedded <eng> [hi]".
Proof.
  intros plain hi.
  assert (Hplain :
    EmbeddedSubtitle__init__ Mini.runtime Samples.embedded_plain
    = (Ret tt, plain)) by (vm_compute; reflexivity).
  assert (Hhi :
    EmbeddedSubtitle__init__ Mini.runtime Samples.embedded_hi = (Ret tt, hi))
    by (vm_compute; reflexivity).
  pose proof (embedded_subtitle_identity Mini.runtime _ _ _ Hplain)
    as [_ [_ [_ [_ [Hid [_ [Hinfo Hsame]]]]]]].
  pose proof (embedded_subtitle_identity Mini.runtime _ _ _ Hhi)
    as [_ [_ [_ [_ [_ [_ [Hinfo' _]]]]]]].
  destruct (Hsame _ _ _ Hhi eq_refl) as [Hid' Hhash'].
  split; [rewrite Hid; reflexivity|]. split; [exact Hid'|].
  split; [exact Hhash'|].
  split; [rewrite Hinfo, Hid; reflexivity|].
  rewrite Hinfo', Hid', Hid. reflexivity.
Defined.

(** Made hearing impaired and forced, a subtitle reports itself not forced;
    made with an unknown hearing impaired flag and not forced, it reports
    itself not hearing impaired. *)
Lemma flags_of_a_constructed_subtitle_witness :
  let both :=
    snd (__init__ Mini.runtime
           (mkArgs "provider" Examples.english "id-1" (Some true) (Some true)
              None None None None false true)) in
  let plain :=
    snd (__init__ Mini.runtime
           (mkArgs "provider" Examples.english "id-1" None (Some false)
              None None None None false true)) in
  hearing_impaired both = Some true
  /\ forced both = Some false
  /\ hearing_impaired plain = Some false
  /\ LanguageType.from_flags (hearing_impaired both) (forced both)
     = language_type both.
Proof.
  intros both plain.
  pose proof (flags_of_a_constructed_subtitle Mini.runtime
                (mkArgs "provider" Examples.english "id-1" (Some true)
                   (Some true) None None None None false true)
                (Ret tt) both eq_refl) as [Hhi [_ [_ [_ Hback]]]].
  split; [apply Hhi; reflexivity|]. split; [reflexivity|].
  split; [reflexivity|exact Hback].
Defined.
